(** * EpiCheck: the live multi-QR aggregator of MultiQRScanner.tsx

    A shallow embedding of the scan callback, the flush interval, the
    Validate and Clear handlers and the overlay renderer of the
    [MultiQRScanner] component, and the properties its specification
    states about them.

    Modelling conventions.
    - A handler (the scan callback, a tick of the flush interval, a
      press on Validate or Clear) runs to completion.  [World] holds the
      state React owns, with every queued update applied, the three
      buffers kept in refs, and the calls made to [onValidate].
    - The scan callback reads the component's state through
      [scanStateRef], and [handleValidate] through the closure of the
      render that created it; both are as old as the last render.  The
      functions of the first part ([handleBarCodeScanned],
      [handleValidate], [step], [run]) are the handlers run right after
      a render, when that snapshot and the state agree.  Module [Live]
      carries the snapshot ([Ref.ScanState]) beside the state, gives each
      handler the snapshot it reads in the source, and makes the render
      an action of its own, which may come late after a tick of the
      flush interval.
    - [Date.now()] and the result of [JSON.parse] are answers of the
      environment; they are arguments of the handler that asks for them.
    - A JavaScript [Set<string>] is the list of its elements in insertion
      order, a [Map<string, V>] the list of its entries in insertion
      order; [Array.from] is then the identity (resp. the list of values).
    - Timestamps are integer milliseconds ([Z]).  Screen coordinates are
      JavaScript numbers that the component only copies and compares
      with [0]; they are carried as integers. *)

From Stdlib Require Import ZArith List String Bool Lia.
From Stdlib Require Import Floats.
Import ListNotations.
Open Scope Z_scope.

(** ** Constants (lines 48-53) *)

Definition FLUSH_INTERVAL_MS : Z := 400.
Definition OVERLAY_TTL_MS : Z := 2000.
Definition DEDUP_WINDOW_MS : Z := 300.

(** ** JavaScript [Set<string>] and [Map<string, V>] *)

Module JsSet.
Definition has (e : string) (s : list string) : bool :=
  existsb (String.eqb e) s.

Definition add (e : string) (s : list string) : list string :=
  if has e s then s else s ++ [e].

Definition size (s : list string) : Z := Z.of_nat (List.length s).
End JsSet.

Module JsMap.
Fixpoint get {V : Type} (k : string) (m : list (string * V)) : option V :=
  match m with
  | [] => None
  | (k', v) :: m' => if String.eqb k k' then Some v else get k m'
  end.

(** [set] keeps the position of an existing key and appends a new one. *)
Fixpoint set {V : Type} (k : string) (v : V) (m : list (string * V))
  : list (string * V) :=
  match m with
  | [] => [(k, v)]
  | (k', v') :: m' =>
      if String.eqb k k' then (k', v) :: m' else (k', v') :: set k v m'
  end.

Definition values {V : Type} (m : list (string * V)) : list V := map snd m.

Definition size {V : Type} (m : list (string * V)) : Z := Z.of_nat (List.length m).
End JsMap.

(** ** Data model *)

(** [QROverlay["bounds"]] (line 67). *)
Record Bounds : Type := mkBounds {
  x : Z;
  y : Z;
  width : Z;
  height : Z
}.

(** [QROverlay] (lines 64-70). *)
Record QROverlay : Type := mkOverlay {
  id : string;
  text : string;
  bounds : Bounds;
  lastSeen : Z;
  processed : bool
}.

(** The fields of expo-camera's [BarcodeScanningResult] that the scan
    callback reads.  Every level may be missing: the callback reads them
    through [?.] and [??]. *)
Module Raw.
Record Point : Type := mkPoint { x : option Z; y : option Z }.
Record Size : Type := mkSize { width : option Z; height : option Z }.
Record BarcodeBounds : Type := mkBarcodeBounds {
  origin : option Point;
  size : option Size
}.
Record BarcodeScanningResult : Type := mkResult {
  data : string;
  bounds : option BarcodeBounds
}.
End Raw.

(** What [JSON.parse(data)] answers, as far as the callback looks at it.
    The payload is declared [email: string]; the fields [email] and
    [Email] are modelled at that type.  [None] stands for a field that
    is missing or holds [null], [false] or [0], which [||] skips exactly
    as it skips [undefined].  A document whose field holds a truthy
    value that is not a string (it would break the declared type) is
    not represented here; [Json] and [extractPayload] below give the
    payload for every answer of [JSON.parse]. *)
Inductive Parsed : Type :=
| ParseThrows
    (* [data] is not JSON text: [JSON.parse] throws a SyntaxError *)
| ParsedNull
    (* the JSON text [null]: reading [.email] throws a TypeError *)
| ParsedOther
    (* a number, a boolean, a string or an array: [.email] and [.Email]
       are undefined *)
| ParsedObject (email Email : option string).

(** The component: React state, the props, the three refs, and the
    calls made to the [onValidate] prop so far. *)
Record World : Type := mkWorld {
  isActive : bool;                              (* prop *)
  overlays : list QROverlay;                    (* useState, line 98 *)
  pendingEmails : list string;                  (* useState, line 99 *)
  validatedEmails : list string;                (* useState, line 100 *)
  isValidating : bool;                          (* useState, line 103 *)
  detectionBuffer : list (string * QROverlay);  (* useRef, line 119 *)
  pendingBuffer : list string;                  (* useRef, line 121 *)
  lastSeenMap : list (string * Z);              (* useRef, line 123 *)
  onValidateCalls : list (list string)          (* arguments of onValidate *)
}.

Definition initial (active : bool) : World :=
  {| isActive := active;
     overlays := [];
     pendingEmails := [];
     validatedEmails := [];
     isValidating := false;
     detectionBuffer := [];
     pendingBuffer := [];
     lastSeenMap := [];
     onValidateCalls := [] |}.

(** ** The scan callback (lines 218-270) *)

(** JavaScript truthiness of a string that may be [undefined]. *)
Definition truthy (v : option string) : bool :=
  match v with
  | Some s => negb (String.eqb s EmptyString)
  | None => false
  end.

(** [a || b] where both operands may be [undefined]. *)
Definition js_or (a b : option string) : option string :=
  if truthy a then a else b.

(** The body of the [try] block (lines 227-228): [None] when it throws. *)
Definition tryExtract (parsed : Parsed) (data : string) : option string :=
  match parsed with
  | ParseThrows => None
  | ParsedNull => None
  | ParsedOther => Some data
  | ParsedObject email Email =>
      match js_or (js_or email Email) (Some data) with
      | Some e => Some e
      | None => Some data
      end
  end.

(** Lines 224-231: the payload, with the [catch] branch. *)
Definition extractEmail (parsed : Parsed) (data : string) : string :=
  match tryExtract parsed data with
  | Some email => email
  | None => data
  end.

(** [v ?? 0]. *)
Definition orZero (v : option Z) : Z :=
  match v with Some n => n | None => 0 end.

(** Lines 243-253. *)
Definition computeBounds (result : Raw.BarcodeScanningResult) : Bounds :=
  let origin := match Raw.bounds result with
                | Some b => Raw.origin b
                | None => None
                end in
  let size := match Raw.bounds result with
              | Some b => Raw.size b
              | None => None
              end in
  let rawX := orZero (match origin with Some o => Raw.x o | None => None end) in
  let rawY := orZero (match origin with Some o => Raw.y o | None => None end) in
  let rawW := orZero (match size with Some sz => Raw.width sz | None => None end) in
  let rawH := orZero (match size with Some sz => Raw.height sz | None => None end) in
  {| x := rawX; y := rawY; width := rawW; height := rawH |}.

(** Line 237: [prev && now - prev < DEDUP_WINDOW_MS].  [prev] is a number
    or [undefined]; as the left operand of [&&] the number [0] is falsy. *)
Definition recentlyProcessed (prev : option Z) (now : Z) : bool :=
  match prev with
  | Some t => negb (t =? 0) && (now - t <? DEDUP_WINDOW_MS)
  | None => false
  end.

Definition handleBarCodeScanned
    (result : Raw.BarcodeScanningResult) (parsed : Parsed) (now : Z)
    (s : World) : World :=
  if negb (isActive s) || isValidating s then s else
  let data := Raw.data result in
  let email := extractEmail parsed data in
  let prev := JsMap.get email (lastSeenMap s) in
  if recentlyProcessed prev now then s else
  let isAlreadyValidated := JsSet.has email (validatedEmails s) in
  let bounds := computeBounds result in
  {| isActive := isActive s;
     overlays := overlays s;
     pendingEmails := pendingEmails s;
     validatedEmails := validatedEmails s;
     isValidating := isValidating s;
     detectionBuffer :=
       JsMap.set email
         {| id := email; text := email; bounds := bounds;
            lastSeen := now; processed := isAlreadyValidated |}
         (detectionBuffer s);
     pendingBuffer :=
       if negb isAlreadyValidated && negb (JsSet.has email (pendingEmails s))
       then JsSet.add email (pendingBuffer s)
       else pendingBuffer s;
     lastSeenMap := JsMap.set email now (lastSeenMap s);
     onValidateCalls := onValidateCalls s |}.

(** ** The flush interval (lines 275-330) *)

(** Lines 286-293: the updater given to [setOverlays] when the detection
    buffer holds entries. *)
Definition mergeOverlays (cutoff : Z) (snapshot : list (string * QROverlay))
    (prev : list QROverlay) : list QROverlay :=
  let merged :=
    fold_left
      (fun m o => if cutoff <? lastSeen o then JsMap.set (id o) o m else m)
      prev [] in
  let merged :=
    fold_left (fun m ko => JsMap.set (fst ko) (snd ko) m) snapshot merged in
  JsMap.values merged.

(** Lines 297-300: the updater given to [setOverlays] otherwise. *)
Definition pruneOverlays (cutoff : Z) (prev : list QROverlay)
  : list QROverlay :=
  let filtered := filter (fun o => cutoff <? lastSeen o) prev in
  if Nat.eqb (List.length filtered) (List.length prev) then prev else filtered.

(** Lines 308-318: the updater given to [setPendingEmails]. *)
Definition unionPending (newEmails prev : list string) : list string :=
  let '(next, changed) :=
    fold_left
      (fun (acc : list string * bool) e =>
         if negb (JsSet.has e (fst acc))
         then (JsSet.add e (fst acc), true)
         else acc)
      newEmails (prev, false) in
  if changed then next else prev.

(** Lines 322-326. *)
Definition pruneLastSeen (cutoff : Z) (m : list (string * Z))
  : list (string * Z) :=
  if 50 <? JsMap.size m
  then filter (fun kt => negb (snd kt <? cutoff)) m
  else m.

Definition flushTick (now : Z) (s : World) : World :=
  let cutoff := now - OVERLAY_TTL_MS in
  let buffer := detectionBuffer s in
  let pending := pendingBuffer s in
  {| isActive := isActive s;
     overlays :=
       if 0 <? JsMap.size buffer
       then mergeOverlays cutoff buffer (overlays s)
       else pruneOverlays cutoff (overlays s);
     pendingEmails :=
       if 0 <? JsSet.size pending
       then unionPending pending (pendingEmails s)
       else pendingEmails s;
     validatedEmails := validatedEmails s;
     isValidating := isValidating s;
     detectionBuffer := if 0 <? JsMap.size buffer then [] else buffer;
     pendingBuffer := if 0 <? JsSet.size pending then [] else pending;
     lastSeenMap := pruneLastSeen cutoff (lastSeenMap s);
     onValidateCalls := onValidateCalls s |}.

(** ** Validate and Clear (lines 332-364) *)

(** [setIsValidating(true)] and [setIsValidating(false)] are issued in
    the same handler: the state after the event has the flag down.  The
    [onValidate] prop belongs to the host screen; the call is recorded
    with its argument and is taken to return. *)
Definition handleValidate (s : World) : World :=
  if (JsSet.size (pendingEmails s) =? 0) || isValidating s then s else
  let emails := pendingEmails s in
  {| isActive := isActive s;
     overlays :=
       map (fun o =>
              {| id := id o; text := text o; bounds := bounds o;
                 lastSeen := lastSeen o;
                 processed := JsSet.has (id o) (pendingEmails s) || processed o |})
           (overlays s);
     pendingEmails := [];
     validatedEmails := fold_left (fun next e => JsSet.add e next) emails
                                  (validatedEmails s);
     isValidating := false;
     detectionBuffer := detectionBuffer s;
     pendingBuffer := pendingBuffer s;
     lastSeenMap := lastSeenMap s;
     onValidateCalls := onValidateCalls s ++ [emails] |}.

Definition handleClearPending (s : World) : World :=
  {| isActive := isActive s;
     overlays := overlays s;
     pendingEmails := [];
     validatedEmails := validatedEmails s;
     isValidating := isValidating s;
     detectionBuffer := detectionBuffer s;
     pendingBuffer := pendingBuffer s;
     lastSeenMap := lastSeenMap s;
     onValidateCalls := onValidateCalls s |}.

(** ** Rendering the overlays (lines 368-439) *)

(** The geometry and the state of one rendered box; colours and the
    label text follow from [boxProcessed] and the overlay's text.  The
    test [!o.bounds] of line 373 never fires: [bounds] is a mandatory
    field of [QROverlay] and the scan callback always fills it. *)
Record OverlayElement : Type := mkElement {
  key : string;
  left : Z;
  top : Z;
  boxWidth : Z;
  boxHeight : Z;
  boxProcessed : bool
}.

Definition overlayElements (ovs : list QROverlay) : list OverlayElement :=
  fold_left
    (fun elements o =>
       if (width (bounds o) =? 0) || (height (bounds o) =? 0)
       then elements
       else elements ++
            [{| key := id o;
                left := x (bounds o);
                top := y (bounds o) - 25;
                boxWidth := width (bounds o);
                boxHeight := height (bounds o);
                boxProcessed := processed o |}])
    ovs [].

(** ** Runs of the component *)

Inductive Event : Type :=
| Scan (result : Raw.BarcodeScanningResult) (parsed : Parsed) (now : Z)
| Flush (now : Z)
| Validate
| Clear
| SetActive (active : bool).

Definition setActive (active : bool) (s : World) : World :=
  {| isActive := active;
     overlays := overlays s;
     pendingEmails := pendingEmails s;
     validatedEmails := validatedEmails s;
     isValidating := isValidating s;
     detectionBuffer := detectionBuffer s;
     pendingBuffer := pendingBuffer s;
     lastSeenMap := lastSeenMap s;
     onValidateCalls := onValidateCalls s |}.

Definition step (s : World) (e : Event) : World :=
  match e with
  | Scan result parsed now => handleBarCodeScanned result parsed now s
  | Flush now => flushTick now s
  | Validate => handleValidate s
  | Clear => handleClearPending s
  | SetActive active => setActive active s
  end.

Definition run (events : list Event) (s : World) : World :=
  fold_left step events s.

(** ** The snapshot that the handlers read (lines 105-116, 220, 333) *)

(** [scanStateRef.current].  Every render assigns the four fields from
    the props and the state of that render (lines 113-116); the closures
    made by that render ([handleValidate], line 332) capture the same
    [pendingEmails] and [isValidating]. *)
Module Ref.
Record ScanState : Type := mkScanState {
  isActive : bool;
  isValidating : bool;
  validatedEmails : list string;
  pendingEmails : list string
}.
End Ref.

(** What a render of the state [s] leaves in [scanStateRef.current]. *)
Definition rendered (s : World) : Ref.ScanState :=
  {| Ref.isActive := isActive s;
     Ref.isValidating := isValidating s;
     Ref.validatedEmails := validatedEmails s;
     Ref.pendingEmails := pendingEmails s |}.

(** The handlers with the snapshot made explicit.  In [World] the state
    fields hold the state with every queued update applied; the snapshot
    is what the last render saw, and it lags behind between a flush tick
    and the render that the tick asks for. *)
Module Live.

(** Lines 218-270, reading [state = scanStateRef.current] where the
    source does (lines 220-221, 240, 265). *)
Definition handleBarCodeScanned
    (state : Ref.ScanState)
    (result : Raw.BarcodeScanningResult) (parsed : Parsed) (now : Z)
    (s : World) : World :=
  if negb (Ref.isActive state) || Ref.isValidating state then s else
  let data := Raw.data result in
  let email := extractEmail parsed data in
  let prev := JsMap.get email (lastSeenMap s) in
  if recentlyProcessed prev now then s else
  let isAlreadyValidated := JsSet.has email (Ref.validatedEmails state) in
  let bounds := computeBounds result in
  {| isActive := isActive s;
     overlays := overlays s;
     pendingEmails := pendingEmails s;
     validatedEmails := validatedEmails s;
     isValidating := isValidating s;
     detectionBuffer :=
       JsMap.set email
         {| id := email; text := email; bounds := bounds;
            lastSeen := now; processed := isAlreadyValidated |}
         (detectionBuffer s);
     pendingBuffer :=
       if negb isAlreadyValidated &&
          negb (JsSet.has email (Ref.pendingEmails state))
       then JsSet.add email (pendingBuffer s)
       else pendingBuffer s;
     lastSeenMap := JsMap.set email now (lastSeenMap s);
     onValidateCalls := onValidateCalls s |}.

(** Lines 332-360.  The guard, the list [emails] and the test on the
    overlays read the closure; [setValidatedEmails] and [setOverlays]
    are given updater functions, which run on the latest state;
    [setPendingEmails] is given a new empty set. *)
Definition handleValidate (closure : Ref.ScanState) (s : World) : World :=
  if (JsSet.size (Ref.pendingEmails closure) =? 0) || Ref.isValidating closure
  then s else
  let emails := Ref.pendingEmails closure in
  {| isActive := isActive s;
     overlays :=
       map (fun o =>
              {| id := id o; text := text o; bounds := bounds o;
                 lastSeen := lastSeen o;
                 processed :=
                   JsSet.has (id o) (Ref.pendingEmails closure) || processed o |})
           (overlays s);
     pendingEmails := [];
     validatedEmails := fold_left (fun next e => JsSet.add e next) emails
                                  (validatedEmails s);
     isValidating := false;
     detectionBuffer := detectionBuffer s;
     pendingBuffer := pendingBuffer s;
     lastSeenMap := lastSeenMap s;
     onValidateCalls := onValidateCalls s ++ [emails] |}.

Record Component : Type := mkComponent {
  world : World;
  seen : Ref.ScanState
}.

(** An event of the component, or the render that React runs after
    state updates were queued. *)
Inductive Action : Type :=
| Handle (e : Event)
| Render.

Definition render (w : World) : Component :=
  {| world := w; seen := rendered w |}.

(** A scan callback queues no update, and the updates of a flush tick
    are rendered later: other callbacks may run first.  A press that
    queues updates, and a change of the [isActive] prop, are rendered
    before anything else happens. *)
Definition step (c : Component) (a : Action) : Component :=
  match a with
  | Handle (Scan result parsed now) =>
      {| world := handleBarCodeScanned (seen c) result parsed now (world c);
         seen := seen c |}
  | Handle (Flush now) =>
      {| world := flushTick now (world c); seen := seen c |}
  | Handle Validate =>
      if (JsSet.size (Ref.pendingEmails (seen c)) =? 0) ||
         Ref.isValidating (seen c)
      then c
      else render (handleValidate (seen c) (world c))
  | Handle Clear => render (handleClearPending (world c))
  | Handle (SetActive active) => render (setActive active (world c))
  | Render => render (world c)
  end.

Definition run (actions : list Action) (c : Component) : Component :=
  fold_left step actions c.

Definition start (active : bool) : Component := render (initial active).

End Live.

(** ** The value of the payload (lines 224-231) *)

(** What [JSON.parse] returns: a JavaScript value built from JSON text.
    Numbers are IEEE 754 doubles. *)
#[warnings="-register-all"]
Inductive Json : Type :=
| JNull
| JBool (b : bool)
| JNumber (x : float)
| JString (s : string)
| JArray (items : list Json)
| JObject (members : list (string * Json)).

(** JavaScript truthiness; [None] is [undefined]. *)
Definition jsTruthy (v : option Json) : bool :=
  match v with
  | None => false
  | Some JNull => false
  | Some (JBool b) => b
  | Some (JNumber x) => negb (PrimFloat.eqb x 0%float) && negb (PrimFloat.is_nan x)
  | Some (JString s) => negb (String.eqb s EmptyString)
  | Some (JArray _) => true
  | Some (JObject _) => true
  end.

(** [v.name] for a name that no prototype defines ([email], [Email]):
    the outer [None] is the TypeError thrown on [null], the inner one is
    [undefined]. *)
Definition getMember (v : Json) (name : string) : option (option Json) :=
  match v with
  | JNull => None
  | JObject members => Some (JsMap.get name members)
  | _ => Some None
  end.

(** The body of the [try] block (lines 227-228) on the answer of
    [JSON.parse] ([None] when it throws); [None] when the block throws. *)
Definition tryPayload (answer : option Json) (data : string) : option Json :=
  match answer with
  | None => None
  | Some parsed =>
      match getMember parsed "email" with
      | None => None
      | Some email =>
          if jsTruthy email
          then email
          else match getMember parsed "Email" with
               | None => None
               | Some Email =>
                   if jsTruthy Email then Email else Some (JString data)
               end
      end
  end.

(** Lines 224-231: the value assigned to [email]. *)
Definition extractPayload (answer : option Json) (data : string) : Json :=
  match tryPayload answer data with
  | Some email => email
  | None => JString data
  end.

(** A field as [Parsed] carries it: [undefined] and the falsy values
    [null], [false], [0] and [NaN] as [None], a string as itself; a
    truthy value that is not a string has no counterpart. *)
Definition fieldView (v : option Json) : option (option string) :=
  match v with
  | Some (JString s) => Some (Some s)
  | Some other => if jsTruthy (Some other) then None else Some None
  | None => Some None
  end.

(** The document as [Parsed] carries it, when it can. *)
Definition parsedView (answer : option Json) : option Parsed :=
  match answer with
  | None => Some ParseThrows
  | Some JNull => Some ParsedNull
  | Some (JObject members) =>
      match fieldView (JsMap.get "email" members),
            fieldView (JsMap.get "Email" members) with
      | Some email, Some Email => Some (ParsedObject email Email)
      | _, _ => None
      end
  | Some _ => Some ParsedOther
  end.

(** ** Vocabulary of the statements *)

Definition disjoint (a b : list string) : Prop :=
  forall p, In p a -> ~ In p b.

(** Validated payloads are neither pending nor buffered, and a buffered
    payload is not yet pending. *)
Record Inv (s : World) : Prop := mkInv {
  inv_validated_pending : disjoint (validatedEmails s) (pendingEmails s);
  inv_validated_buffer : disjoint (validatedEmails s) (pendingBuffer s);
  inv_pending_buffer : disjoint (pendingEmails s) (pendingBuffer s)
}.

Definition renderBox (o : QROverlay) : list OverlayElement :=
  if (width (bounds o) =? 0) || (height (bounds o) =? 0)
  then []
  else [{| key := id o;
           left := x (bounds o);
           top := y (bounds o) - 25;
           boxWidth := width (bounds o);
           boxHeight := height (bounds o);
           boxProcessed := processed o |}].

Definition zeroBounds : Bounds := {| x := 0; y := 0; width := 0; height := 0 |}.

(** ** Sample inputs *)

Definition at_origin (px py : Z) : Raw.BarcodeScanningResult :=
  {| Raw.data := "x@epitech.eu";
     Raw.bounds :=
       Some {| Raw.origin := Some {| Raw.x := Some px; Raw.y := Some py |};
               Raw.size := Some {| Raw.width := Some 90;
                                   Raw.height := Some 90 |} |} |}.

Definition quote : string := String (Ascii.ascii_of_nat 34) EmptyString.

(** The text of a QR code holding a JSON object whose [email] field is
    the empty string: an opening brace, the quoted key [email], a colon,
    an empty quoted string, a closing brace. *)
Definition empty_email_qr : string :=
  ("{" ++ quote ++ "email" ++ quote ++ ":" ++ quote ++ quote ++ "}")%string.

(** Fifty-one codes with distinct one-letter payloads, detected one
    millisecond apart. *)
Definition crowd : list Event :=
  map (fun i =>
         Scan {| Raw.data := String (Ascii.ascii_of_nat (65 + i)) EmptyString;
                 Raw.bounds := None |}
              ParseThrows (1700000000000 + Z.of_nat i))
      (seq 0 51).

Definition demo_events : list Event :=
  [ Scan (at_origin 10 20) ParseThrows 1700000000000;
    Flush 1700000000400;
    Validate ].

Definition validate_demo : World :=
  {| isActive := true;
     overlays :=
       [ {| id := "a@x.eu"; text := "a@x.eu";
            bounds := {| x := 10; y := 40; width := 80; height := 80 |};
            lastSeen := 1700000000000; processed := false |};
         {| id := "b@x.eu"; text := "b@x.eu";
            bounds := {| x := 120; y := 40; width := 80; height := 80 |};
            lastSeen := 1700000000100; processed := false |} ];
     pendingEmails := ["a@x.eu"; "b@x.eu"]%string;
     validatedEmails := [];
     isValidating := false;
     detectionBuffer := [];
     pendingBuffer := [];
     lastSeenMap := [("a@x.eu"%string, 1700000000000);
                     ("b@x.eu"%string, 1700000000100)];
     onValidateCalls := [] |}.

Definition stale_demo : World :=
  {| isActive := true;
     overlays :=
       [ {| id := "a@x.eu"; text := "a@x.eu";
            bounds := {| x := 10; y := 40; width := 80; height := 80 |};
            lastSeen := 1700000000000; processed := false |};
         {| id := "b@x.eu"; text := "b@x.eu";
            bounds := {| x := 120; y := 40; width := 80; height := 80 |};
            lastSeen := 1700000002500; processed := false |} ];
     pendingEmails := ["a@x.eu"; "b@x.eu"]%string;
     validatedEmails := [];
     isValidating := false;
     detectionBuffer := [];
     pendingBuffer := [];
     lastSeenMap := [("a@x.eu"%string, 1700000000000);
                     ("b@x.eu"%string, 1700000002500)];
     onValidateCalls := [] |}.

Definition cleared_demo : World :=
  {| isActive := true;
     overlays := [];
     pendingEmails := ["x@epitech.eu"%string];
     validatedEmails := [];
     isValidating := false;
     detectionBuffer := [];
     pendingBuffer := [];
     lastSeenMap := [("x@epitech.eu"%string, 1700000000000)];
     onValidateCalls := [] |}.

(** ** The bottom bar (lines 515-572) *)





(** ** Vocabulary of the statements on runs *)

(** Every payload handed to [onValidate] so far, in order. *)
Definition submitted (s : World) : list string :=
  List.concat (onValidateCalls s).

(** An overlay stored under the key [k]. *)
Definition keyed (ko : string * QROverlay) : Prop :=
  id (snd ko) = fst ko /\ text (snd ko) = fst ko.

(** The shape that every reachable state has. *)
Record Shape (s : World) : Prop := mkShape {
  shape_pending : NoDup (pendingEmails s);
  shape_validated : NoDup (validatedEmails s);
  shape_buffer : NoDup (pendingBuffer s);
  shape_calls : NoDup (submitted s);
  shape_calls_nonempty : forall emails, In emails (onValidateCalls s) -> emails <> [];
  shape_submitted : forall p, In p (submitted s) <-> In p (validatedEmails s);
  shape_overlay_ids : NoDup (map id (overlays s));
  shape_overlay_text : forall o, In o (overlays s) -> text o = id o;
  shape_overlay_processed :
    forall o, In o (overlays s) -> processed o = true ->
              In (id o) (validatedEmails s);
  shape_detection_keys : NoDup (map fst (detectionBuffer s));
  shape_detection_keyed : forall ko, In ko (detectionBuffer s) -> keyed ko;
  shape_detection_processed :
    forall ko, In ko (detectionBuffer s) -> processed (snd ko) = true ->
               In (fst ko) (validatedEmails s);
  shape_lastSeen_keys : NoDup (map fst (lastSeenMap s))
}.

(** The shape of the states reached when renders come at any time:
    what holds of the state and the refs, and how the snapshot relates
    to them. *)
Record WorldShape (w : World) : Prop := mkWorldShape {
  ws_pending : NoDup (pendingEmails w);
  ws_validated : NoDup (validatedEmails w);
  ws_validating : isValidating w = false;
  ws_calls :
    forall emails, In emails (onValidateCalls w) ->
                   emails <> [] /\ NoDup emails;
  ws_submitted : forall p, In p (submitted w) <-> In p (validatedEmails w);
  ws_overlay_ids : NoDup (map id (overlays w));
  ws_overlay_text : forall o, In o (overlays w) -> text o = id o;
  ws_detection_keys : NoDup (map fst (detectionBuffer w));
  ws_detection_keyed : forall ko, In ko (detectionBuffer w) -> keyed ko
}.

Record LiveShape (c : Live.Component) : Prop := mkLiveShape {
  live_world : WorldShape (Live.world c);
  live_seen_validated :
    Ref.validatedEmails (Live.seen c) = validatedEmails (Live.world c);
  live_seen_pending :
    forall p, In p (Ref.pendingEmails (Live.seen c)) ->
              In p (pendingEmails (Live.world c));
  live_seen_pending_nodup : NoDup (Ref.pendingEmails (Live.seen c));
  live_seen_validating : Ref.isValidating (Live.seen c) = false;
  live_seen_active : Ref.isActive (Live.seen c) = isActive (Live.world c)
}.

(** ** Sample runs with a late render *)

(** A code is detected, a flush tick makes it pending, and the code is
    detected again before React has rendered the tick's update; then the
    render comes, Validate is pressed, and the next tick runs. *)
Definition late_render : list Live.Action :=
  [ Live.Handle (Scan (at_origin 10 20) ParseThrows 1700000000000);
    Live.Handle (Flush 1700000000400);
    Live.Handle (Scan (at_origin 30 40) ParseThrows 1700000000410);
    Live.Render;
    Live.Handle Validate ].

(** * Properties *)

(** Case analysis on the two early returns of the scan callback. *)
Ltac scan_gate s now :=
  unfold handleBarCodeScanned;
  destruct (negb (isActive s) || isValidating s);
  [| destruct (recentlyProcessed _ now)].

(** ** The definitions on sample inputs *)

Example set_keeps_position :
  JsMap.set "a" 2 [("a"%string, 1); ("b"%string, 3)] =
  [("a"%string, 2); ("b"%string, 3)].
Proof. reflexivity. Qed.

Example set_appends_new_key :
  JsMap.set "c" 2 [("a"%string, 1); ("b"%string, 3)] =
  [("a"%string, 1); ("b"%string, 3); ("c"%string, 2)].
Proof. reflexivity. Qed.

Example extract_plain_text :
  extractEmail ParseThrows "x@epitech.eu" = "x@epitech.eu"%string.
Proof. reflexivity. Qed.

Example extract_Email_field :
  extractEmail (ParsedObject None (Some "y@epitech.eu"%string)) "raw"
  = "y@epitech.eu"%string.
Proof. reflexivity. Qed.

Example extract_prefers_email :
  extractEmail (ParsedObject (Some "x@epitech.eu"%string)
                             (Some "y@epitech.eu"%string)) "raw"
  = "x@epitech.eu"%string.
Proof. reflexivity. Qed.

Example demo_run :
  let s := run demo_events (initial true) in
  validatedEmails s = ["x@epitech.eu"%string] /\
  pendingEmails s = [] /\
  onValidateCalls s = [["x@epitech.eu"%string]] /\
  map processed (overlays s) = [true].
Proof. repeat split. Qed.

Example flush_expires_overlay :
  overlays (run (demo_events ++ [Flush 1700000002000]) (initial true)) = [].
Proof. reflexivity. Qed.

Example render_skips_flat_box :
  overlayElements
    [ {| id := "a@x.eu"; text := "a@x.eu";
         bounds := {| x := 10; y := 40; width := 0; height := 80 |};
         lastSeen := 1700000000000; processed := false |};
      {| id := "b@x.eu"; text := "b@x.eu";
         bounds := {| x := 120; y := 40; width := 80; height := 80 |};
         lastSeen := 1700000000100; processed := true |} ] =
    [ {| key := "b@x.eu"; left := 120; top := 15;
         boxWidth := 80; boxHeight := 80; boxProcessed := true |} ].
Proof. reflexivity. Qed.

Example crowd_fills_the_dedup_map :
  List.length (lastSeenMap (run crowd (initial true))) = 51%nat /\
  List.length (lastSeenMap (flushTick 1700000000450 (run crowd (initial true))))
  = 51%nat /\
  List.length (lastSeenMap (flushTick 1700000002025 (run crowd (initial true))))
  = 26%nat.
Proof. vm_compute. repeat split. Qed.

(** With the first detection at the clock reading [0] the second one is
    not filtered, and the overlay shows its position. *)
Example three_detections_from_time_zero :
  let s1 := handleBarCodeScanned (at_origin 10 20) ParseThrows 0 (initial true) in
  let s2 := handleBarCodeScanned (at_origin 30 40) ParseThrows 100 s1 in
  let s3 := handleBarCodeScanned (at_origin 50 60) ParseThrows 250 s2 in
  map bounds (overlays (flushTick 400 s3)) =
  [ {| x := 30; y := 40; width := 90; height := 90 |} ].
Proof. reflexivity. Qed.

(** ** Sets and maps *)

Lemma has_true_iff (e : string) (s : list string) :
  JsSet.has e s = true <-> In e s.
Proof.
  unfold JsSet.has. rewrite existsb_exists. split.
  - intros [x [Hin Heq]]. apply String.eqb_eq in Heq. now subst.
  - intros Hin. exists e. split; [assumption | apply String.eqb_refl].
Qed.

Lemma has_false_iff (e : string) (s : list string) :
  JsSet.has e s = false <-> ~ In e s.
Proof.
  rewrite <- has_true_iff. destruct (JsSet.has e s); split; congruence.
Qed.

Lemma add_In (x e : string) (s : list string) :
  In x (JsSet.add e s) <-> x = e \/ In x s.
Proof.
  unfold JsSet.add. destruct (JsSet.has e s) eqn:Hhas.
  - apply has_true_iff in Hhas. split; [now right | intros [-> | H]; assumption].
  - rewrite in_app_iff. simpl. intuition congruence.
Qed.

Lemma fold_add_In (x : string) (l acc : list string) :
  In x (fold_left (fun next e => JsSet.add e next) l acc) <-> In x l \/ In x acc.
Proof.
  revert acc. induction l as [|e l IH]; intros acc; simpl.
  - tauto.
  - rewrite IH, add_In. intuition congruence.
Qed.

Lemma unionPending_fold (newEmails prev : list string) :
  unionPending newEmails prev =
  fold_left (fun next e => JsSet.add e next) newEmails prev.
Proof.
  unfold unionPending.
  assert (H : forall l acc (b : bool),
             (b = false -> acc = prev) ->
             (let '(next, changed) :=
                fold_left
                  (fun (a : list string * bool) e =>
                     if negb (JsSet.has e (fst a))
                     then (JsSet.add e (fst a), true) else a)
                  l (acc, b) in
              if changed then next else prev) =
             fold_left (fun next e => JsSet.add e next) l acc).
  { induction l as [|e l IH]; intros acc b Hb; simpl.
    - destruct b; [reflexivity | symmetry; now apply Hb].
    - destruct (JsSet.has e acc) eqn:Hhas; simpl.
      + replace (JsSet.add e acc) with acc
          by (unfold JsSet.add; now rewrite Hhas).
        apply IH, Hb.
      + apply IH. discriminate. }
  apply H. reflexivity.
Qed.

Lemma unionPending_In (x : string) (newEmails prev : list string) :
  In x (unionPending newEmails prev) <-> In x newEmails \/ In x prev.
Proof. rewrite unionPending_fold. apply fold_add_In. Qed.

Lemma get_set_same {V : Type} (k : string) (v : V) (m : list (string * V)) :
  JsMap.get k (JsMap.set k v m) = Some v.
Proof.
  induction m as [|[k' v'] m IH]; simpl.
  - now rewrite String.eqb_refl.
  - destruct (String.eqb k k') eqn:E; simpl; rewrite E; [reflexivity | exact IH].
Qed.

Lemma get_set_other {V : Type} (k k0 : string) (v : V) (m : list (string * V)) :
  k0 <> k -> JsMap.get k0 (JsMap.set k v m) = JsMap.get k0 m.
Proof.
  intros Hne. induction m as [|[k' v'] m IH]; simpl.
  - apply String.eqb_neq in Hne. now rewrite Hne.
  - destruct (String.eqb k k') eqn:E; simpl.
    + apply String.eqb_eq in E. subst k'.
      apply String.eqb_neq in Hne. now rewrite Hne.
    + now rewrite IH.
Qed.

Lemma size_pos_iff {A : Type} (l : list A) :
  (0 <? Z.of_nat (List.length l)) = false <-> l = [].
Proof.
  destruct l as [|a l]; split; intros H;
    first [reflexivity | discriminate].
Qed.

Lemma set_size_zero_iff (l : list string) :
  (JsSet.size l =? 0) = true <-> l = [].
Proof.
  unfold JsSet.size. destruct l as [|a l]; split; intros H;
    first [reflexivity | discriminate].
Qed.

(** ** Validate *)

Lemma handleValidate_idle (s : World) :
  pendingEmails s = [] \/ isValidating s = true -> handleValidate s = s.
Proof.
  intros [H | H]; unfold handleValidate.
  - apply set_size_zero_iff in H. now rewrite H.
  - rewrite H. now rewrite orb_true_r.
Qed.

Lemma handleValidate_fires (s : World) :
  pendingEmails s <> [] -> isValidating s = false ->
  handleValidate s =
  {| isActive := isActive s;
     overlays :=
       map (fun o =>
              {| id := id o; text := text o; bounds := bounds o;
                 lastSeen := lastSeen o;
                 processed := JsSet.has (id o) (pendingEmails s) || processed o |})
           (overlays s);
     pendingEmails := [];
     validatedEmails :=
       fold_left (fun next e => JsSet.add e next) (pendingEmails s)
                 (validatedEmails s);
     isValidating := false;
     detectionBuffer := detectionBuffer s;
     pendingBuffer := pendingBuffer s;
     lastSeenMap := lastSeenMap s;
     onValidateCalls := onValidateCalls s ++ [pendingEmails s] |}.
Proof.
  intros Hne Hv. unfold handleValidate.
  destruct (JsSet.size (pendingEmails s) =? 0) eqn:E.
  - apply set_size_zero_iff in E. contradiction.
  - now rewrite Hv.
Qed.

(** C1.  From a state with a non-empty pending set and no validation in
    flight, Validate makes the validated set a superset of the pending
    set, empties the pending set, calls [onValidate] exactly once, with a
    list holding exactly the pending payloads, and leaves every overlay
    of a pending payload flagged processed.  With an empty pending set or
    a validation in flight it changes nothing. *)
Theorem handleValidate_submits_pending :
  forall s : World,
    (pendingEmails s <> [] -> isValidating s = false ->
     let s' := handleValidate s in
     (forall p, In p (pendingEmails s) \/ In p (validatedEmails s) ->
                In p (validatedEmails s')) /\
     pendingEmails s' = [] /\
     (exists emails,
         onValidateCalls s' = onValidateCalls s ++ [emails] /\
         forall p, In p emails <-> In p (pendingEmails s)) /\
     map id (overlays s') = map id (overlays s) /\
     (forall o, In o (overlays s') -> In (id o) (pendingEmails s) ->
                processed o = true)) /\
    (pendingEmails s = [] \/ isValidating s = true -> handleValidate s = s).
Proof.
  intros s. split; [| apply handleValidate_idle].
  intros Hne Hv s'. subst s'. rewrite (handleValidate_fires s Hne Hv). simpl.
  repeat split.
  - intros p Hp. now apply fold_add_In.
  - exists (pendingEmails s). split; [reflexivity | tauto].
  - rewrite map_map. reflexivity.
  - intros o Ho Hid. apply in_map_iff in Ho. destruct Ho as [o0 [<- _]].
    simpl in *. apply has_true_iff in Hid. now rewrite Hid.
Qed.

Lemma handleValidate_submits_pending_witness :
  pendingEmails validate_demo <> [] /\
  isValidating validate_demo = false /\
  (forall p, In p ["a@x.eu"; "b@x.eu"]%string ->
             In p (validatedEmails (handleValidate validate_demo))) /\
  pendingEmails (handleValidate validate_demo) = [] /\
  (forall o, In o (overlays (handleValidate validate_demo)) ->
             In (id o) ["a@x.eu"; "b@x.eu"]%string -> processed o = true).
Proof.
  assert (Hne : pendingEmails validate_demo <> []) by (simpl; discriminate).
  assert (Hv : isValidating validate_demo = false) by reflexivity.
  destruct (handleValidate_submits_pending validate_demo) as [H _].
  destruct (H Hne Hv) as [Hsup [Hempty [_ [_ Hproc]]]].
  repeat split; try assumption.
  intros p Hp. apply Hsup. left. exact Hp.
Defined.

(** ** The invariant of the runs *)

Lemma Inv_initial (active : bool) : Inv (initial active).
Proof. split; intros p H; simpl in *; tauto. Qed.

Lemma Inv_scan result parsed now (s : World) :
  Inv s -> Inv (handleBarCodeScanned result parsed now s).
Proof.
  intros [H1 H2 H3]. scan_gate s now; [now split | now split |].
  set (email := extractEmail parsed (Raw.data result)).
  split; simpl; try assumption.
  - intros p Hp.
    destruct (JsSet.has email (validatedEmails s)) eqn:Hval; simpl;
      [now apply H2 |].
    destruct (JsSet.has email (pendingEmails s)); simpl; [now apply H2 |].
    rewrite add_In. intros [-> | Hin]; [| now apply (H2 p)].
    apply has_false_iff in Hval. contradiction.
  - intros p Hp.
    destruct (JsSet.has email (validatedEmails s)); simpl; [now apply H3 |].
    destruct (JsSet.has email (pendingEmails s)) eqn:Hpend; simpl;
      [now apply H3 |].
    rewrite add_In. intros [-> | Hin]; [| now apply (H3 p)].
    apply has_false_iff in Hpend. contradiction.
Qed.

Lemma Inv_flush now (s : World) : Inv s -> Inv (flushTick now s).
Proof.
  intros [H1 H2 H3].
  assert (Hbuf : forall p,
             ~ In p (if 0 <? JsSet.size (pendingBuffer s)
                     then [] else pendingBuffer s)).
  { intros p. unfold JsSet.size.
    destruct (0 <? Z.of_nat (List.length (pendingBuffer s))) eqn:E.
    - intros [].
    - apply size_pos_iff in E. rewrite E. intros []. }
  split; simpl; intros p Hp; try apply Hbuf.
  destruct (0 <? JsSet.size (pendingBuffer s)); [| now apply H1].
  rewrite unionPending_In. intros [Hin | Hin].
  - now apply (H2 p).
  - now apply (H1 p).
Qed.

Lemma Inv_validate (s : World) : Inv s -> Inv (handleValidate s).
Proof.
  intros [H1 H2 H3]. unfold handleValidate.
  destruct ((JsSet.size (pendingEmails s) =? 0) || isValidating s);
    [now split |].
  split; simpl; intros p Hp; try tauto.
  apply fold_add_In in Hp. destruct Hp as [Hp | Hp].
  - now apply H3.
  - now apply H2.
Qed.

Lemma Inv_clear (s : World) : Inv s -> Inv (handleClearPending s).
Proof.
  intros [H1 H2 H3]. split; simpl; intros p Hp; try tauto. now apply H2.
Qed.

Lemma Inv_setActive active (s : World) : Inv s -> Inv (setActive active s).
Proof. intros [H1 H2 H3]. now split. Qed.

Create HintDb scanner.
#[local] Hint Resolve Inv_initial Inv_scan Inv_flush Inv_validate Inv_clear
  Inv_setActive : scanner.

Lemma Inv_step (s : World) (e : Event) : Inv s -> Inv (step s e).
Proof. destruct e; simpl; auto with scanner. Qed.

Lemma Inv_run (events : list Event) (s : World) : Inv s -> Inv (run events s).
Proof.
  revert s. induction events as [|e events IH]; intros s H; simpl.
  - exact H.
  - apply IH, Inv_step, H.
Qed.



(** ** The scan callback *)

Section ScanCallback.
Variables (result : Raw.BarcodeScanningResult) (parsed : Parsed) (now : Z).
Variable s : World.

Lemma scan_gated :
  isActive s = false \/ isValidating s = true ->
  handleBarCodeScanned result parsed now s = s.
Proof.
  intros [H | H]; unfold handleBarCodeScanned; rewrite H;
    [reflexivity | now rewrite orb_true_r].
Qed.

Lemma scan_suppressed :
  recentlyProcessed
    (JsMap.get (extractEmail parsed (Raw.data result)) (lastSeenMap s)) now
  = true ->
  handleBarCodeScanned result parsed now s = s.
Proof.
  intros H. unfold handleBarCodeScanned.
  destruct (negb (isActive s) || isValidating s); [reflexivity |].
  now rewrite H.
Qed.

Lemma scan_processed :
  isActive s = true -> isValidating s = false ->
  recentlyProcessed
    (JsMap.get (extractEmail parsed (Raw.data result)) (lastSeenMap s)) now
  = false ->
  let email := extractEmail parsed (Raw.data result) in
  let validated := JsSet.has email (validatedEmails s) in
  handleBarCodeScanned result parsed now s =
  {| isActive := isActive s;
     overlays := overlays s;
     pendingEmails := pendingEmails s;
     validatedEmails := validatedEmails s;
     isValidating := isValidating s;
     detectionBuffer :=
       JsMap.set email
         {| id := email; text := email; bounds := computeBounds result;
            lastSeen := now; processed := validated |}
         (detectionBuffer s);
     pendingBuffer :=
       if negb validated && negb (JsSet.has email (pendingEmails s))
       then JsSet.add email (pendingBuffer s)
       else pendingBuffer s;
     lastSeenMap := JsMap.set email now (lastSeenMap s);
     onValidateCalls := onValidateCalls s |}.
Proof.
  intros Ha Hv Hd email validated. unfold handleBarCodeScanned.
  rewrite Ha, Hv. cbn [negb orb]. cbv zeta. now rewrite Hd.
Qed.

(** The callback touches the dedup entry of the detected payload only,
    and never the state that React owns. *)
Lemma scan_frame :
  overlays (handleBarCodeScanned result parsed now s) = overlays s /\
  pendingEmails (handleBarCodeScanned result parsed now s) = pendingEmails s /\
  validatedEmails (handleBarCodeScanned result parsed now s)
  = validatedEmails s /\
  onValidateCalls (handleBarCodeScanned result parsed now s)
  = onValidateCalls s /\
  forall k, k <> extractEmail parsed (Raw.data result) ->
            JsMap.get k (lastSeenMap (handleBarCodeScanned result parsed now s))
            = JsMap.get k (lastSeenMap s).
Proof.
  scan_gate s now; repeat split; intros k Hk; try reflexivity.
  cbn [lastSeenMap]. now apply get_set_other.
Qed.

End ScanCallback.

Lemma recentlyProcessed_within (t now : Z) :
  t <> 0 -> now - t < DEDUP_WINDOW_MS ->
  recentlyProcessed (Some t) now = true.
Proof.
  intros Ht Hw. unfold recentlyProcessed.
  apply andb_true_iff. split.
  - apply negb_true_iff, Z.eqb_neq, Ht.
  - apply Z.ltb_lt, Hw.
Qed.

Lemma recentlyProcessed_elapsed (prev : option Z) (now : Z) :
  (forall t, prev = Some t -> DEDUP_WINDOW_MS <= now - t) ->
  recentlyProcessed prev now = false.
Proof.
  intros H. destruct prev as [t |]; simpl; [| reflexivity].
  apply andb_false_iff. right. apply Z.ltb_ge. now apply H.
Qed.

(** A detection that passes both returns records its time. *)
Lemma scan_records_time (state : Ref.ScanState)
    (result : Raw.BarcodeScanningResult) (parsed : Parsed) (now : Z)
    (s : World) :
  let p := extractEmail parsed (Raw.data result) in
  Ref.isActive state = true -> Ref.isValidating state = false ->
  recentlyProcessed (JsMap.get p (lastSeenMap s)) now = false ->
  JsMap.get p
    (lastSeenMap (Live.handleBarCodeScanned state result parsed now s))
  = Some now.
Proof.
  intros p Ha Hv Hd. unfold Live.handleBarCodeScanned.
  rewrite Ha, Hv. cbn [negb orb]. cbv zeta. fold p. rewrite Hd.
  cbn [lastSeenMap]. apply get_set_same.
Qed.



(** The integer [0] is no reading of the clock of a running session;
    the test of line 237 would take a time [0] recorded in the map for a
    missing entry, and let the next detection through. *)
Example dedup_skipped_after_time_zero :
  let s1 := handleBarCodeScanned (at_origin 10 20) ParseThrows 0 (initial true) in
  let s2 := handleBarCodeScanned (at_origin 30 40) ParseThrows 100 s1 in
  JsMap.get "x@epitech.eu"%string (lastSeenMap s1) = Some 0 /\
  100 - 0 < DEDUP_WINDOW_MS /\
  JsMap.get "x@epitech.eu"%string (lastSeenMap s2) = Some 100 /\
  detectionBuffer s2 <> detectionBuffer s1.
Proof.
  repeat split; try reflexivity. simpl. discriminate.
Qed.

(** ** The flush tick *)

Lemma filter_same_length {A : Type} (f : A -> bool) (l : list A) :
  List.length (filter f l) = List.length l -> filter f l = l.
Proof.
  induction l as [|a l IH]; simpl; [reflexivity |].
  destruct (f a); simpl; intros H.
  - f_equal. apply IH. now injection H.
  - pose proof (filter_length_le f l). lia.
Qed.

Lemma pruneOverlays_filter (cutoff : Z) (prev : list QROverlay) :
  pruneOverlays cutoff prev = filter (fun o => cutoff <? lastSeen o) prev.
Proof.
  unfold pruneOverlays.
  destruct (Nat.eqb _ _) eqn:E; [| reflexivity].
  apply Nat.eqb_eq in E. symmetry. now apply filter_same_length.
Qed.

Lemma values_set_In {V : Type} (k : string) (v v' : V) (m : list (string * V)) :
  In v' (JsMap.values (JsMap.set k v m)) -> v' = v \/ In v' (JsMap.values m).
Proof.
  unfold JsMap.values. induction m as [|[k0 v0] m IH]; simpl.
  - intros [H | []]. now left.
  - destruct (String.eqb k k0); simpl.
    + intros [H | H]; [now left | now right; right].
    + intros [H | H]; [now right; left |].
      destruct (IH H) as [H' | H']; [now left | now right; right].
Qed.

Lemma merge_snapshot_In (o : QROverlay) (snapshot m : list (string * QROverlay)) :
  In o (JsMap.values
          (fold_left (fun m ko => JsMap.set (fst ko) (snd ko) m) snapshot m)) ->
  In o (JsMap.values snapshot) \/ In o (JsMap.values m).
Proof.
  revert m. induction snapshot as [|[k v] snapshot IH]; intros m; simpl.
  - now right.
  - intros H. destruct (IH _ H) as [H' | H']; [now left; right |].
    apply values_set_In in H'. destruct H' as [-> | H']; [now left; left | now right].
Qed.

Lemma merge_prev_In (cutoff : Z) (o : QROverlay) (prev : list QROverlay)
    (m : list (string * QROverlay)) :
  In o (JsMap.values
          (fold_left
             (fun m o => if cutoff <? lastSeen o then JsMap.set (id o) o m else m)
             prev m)) ->
  (In o prev /\ cutoff < lastSeen o) \/ In o (JsMap.values m).
Proof.
  revert m. induction prev as [|a prev IH]; intros m; simpl.
  - now right.
  - intros H. destruct (IH _ H) as [[Hin Hlt] | H'].
    + left. split; [now right | exact Hlt].
    + destruct (cutoff <? lastSeen a) eqn:E; [| now right].
      apply values_set_In in H'. destruct H' as [-> | H']; [| now right].
      left. split; [now left | now apply Z.ltb_lt].
Qed.

Lemma mergeOverlays_In (cutoff : Z) (o : QROverlay)
    (snapshot : list (string * QROverlay)) (prev : list QROverlay) :
  In o (mergeOverlays cutoff snapshot prev) ->
  In o (JsMap.values snapshot) \/ (In o prev /\ cutoff < lastSeen o).
Proof.
  unfold mergeOverlays. intros H.
  apply merge_snapshot_In in H. destruct H as [H | H]; [now left |].
  apply merge_prev_In in H. destruct H as [H | []]. now right.
Qed.

(** C5, as the code has it.  After a flush tick at time [now], an overlay
    of the collection is either younger than [now - TTL] or was written
    from the detection buffer by this very tick; when the detection
    buffer is empty the tick only prunes, and no overlay last seen at or
    before [now - TTL] is left. *)
Theorem flushTick_drops_stale_overlays :
  forall (now : Z) (s : World),
    (forall o, In o (overlays (flushTick now s)) ->
               now - OVERLAY_TTL_MS < lastSeen o \/
               In o (JsMap.values (detectionBuffer s))) /\
    (detectionBuffer s = [] ->
     overlays (flushTick now s) =
       filter (fun o => now - OVERLAY_TTL_MS <? lastSeen o) (overlays s) /\
     forall o, In o (overlays (flushTick now s)) ->
               now - OVERLAY_TTL_MS < lastSeen o).
Proof.
  intros now s. split.
  - intros o. simpl. destruct (0 <? JsMap.size (detectionBuffer s)).
    + intros H. apply mergeOverlays_In in H. tauto.
    + rewrite pruneOverlays_filter, filter_In. intros [_ H].
      left. now apply Z.ltb_lt.
  - intros Hempty. simpl. rewrite Hempty. simpl.
    rewrite pruneOverlays_filter. split; [reflexivity |].
    intros o Ho. apply filter_In in Ho. now apply Z.ltb_lt.
Qed.

Lemma flushTick_drops_stale_overlays_witness :
  detectionBuffer stale_demo = [] /\
  map id (overlays (flushTick 1700000002800 stale_demo)) = ["b@x.eu"%string].
Proof.
  assert (Hempty : detectionBuffer stale_demo = []) by reflexivity.
  split; [exact Hempty |].
  destruct (flushTick_drops_stale_overlays 1700000002800 stale_demo)
    as [_ H].
  destruct (H Hempty) as [Heq _]. rewrite Heq. reflexivity.
Defined.

(** C5, as stated, fails when the detection buffer holds an old entry: a
    code detected at [1000] and flushed at [4000] (no tick in between)
    is last seen before [4000 - TTL] and yet is in the collection after
    the tick. *)
Lemma flushTick_keeps_stale_buffered_overlay :
  let s := handleBarCodeScanned (at_origin 10 20) ParseThrows 1000 (initial true) in
  exists o, In o (overlays (flushTick 4000 s)) /\
            lastSeen o < 4000 - OVERLAY_TTL_MS.
Proof.
  simpl. eexists. split; [left; reflexivity |]. simpl.
  unfold OVERLAY_TTL_MS. lia.
Qed.

(** ** Three detections inside one dedup window *)

(** C6, as the code has it.  The payload [x@epitech.eu] is detected at
    the clock readings [T], [T + 100] and [T + 250] (with [T] other than
    [0]) at three positions, starting from the initial state.  Only the
    first detection writes the pending buffer; the other two are dropped
    by the dedup filter before any buffer is written, so that after the
    next flush tick the overlay of the payload carries the bounds and
    the time of the first detection. *)
Theorem three_detections_first_wins :
  forall (T nowF x0 y0 x1 y1 x2 y2 : Z),
    T <> 0 ->
    let s1 := handleBarCodeScanned (at_origin x0 y0) ParseThrows T (initial true) in
    let s2 := handleBarCodeScanned (at_origin x1 y1) ParseThrows (T + 100) s1 in
    let s3 := handleBarCodeScanned (at_origin x2 y2) ParseThrows (T + 250) s2 in
    let s4 := flushTick nowF s3 in
    pendingBuffer (initial true) = [] /\
    pendingBuffer s1 = ["x@epitech.eu"%string] /\
    s2 = s1 /\ s3 = s2 /\
    overlays s4 =
      [ {| id := "x@epitech.eu"; text := "x@epitech.eu";
           bounds := {| x := x0; y := y0; width := 90; height := 90 |};
           lastSeen := T; processed := false |} ] /\
    pendingEmails s4 = ["x@epitech.eu"%string].
Proof.
  intros T nowF x0 y0 x1 y1 x2 y2 HT s1 s2 s3 s4.
  assert (H2 : s2 = s1).
  { subst s2. apply scan_suppressed. subst s1. cbn.
    apply recentlyProcessed_within; [exact HT | unfold DEDUP_WINDOW_MS; lia]. }
  assert (H3 : s3 = s2).
  { subst s3. rewrite H2. apply scan_suppressed. subst s1. cbn.
    apply recentlyProcessed_within; [exact HT | unfold DEDUP_WINDOW_MS; lia]. }
  repeat split; try assumption; try reflexivity.
  - subst s4. rewrite H3, H2. reflexivity.
  - subst s4. rewrite H3, H2. reflexivity.
Qed.

Lemma three_detections_first_wins_witness :
  1700000000000 <> 0 /\
  overlays
    (flushTick 1700000000400
       (handleBarCodeScanned (at_origin 50 60) ParseThrows (1700000000000 + 250)
          (handleBarCodeScanned (at_origin 30 40) ParseThrows (1700000000000 + 100)
             (handleBarCodeScanned (at_origin 10 20) ParseThrows 1700000000000
                (initial true))))) =
    [ {| id := "x@epitech.eu"; text := "x@epitech.eu";
         bounds := {| x := 10; y := 20; width := 90; height := 90 |};
         lastSeen := 1700000000000; processed := false |} ].
Proof.
  assert (HT : 1700000000000 <> 0) by lia.
  split; [exact HT |].
  exact (proj1 (proj2 (proj2 (proj2 (proj2
    (three_detections_first_wins 1700000000000 1700000000400
       10 20 30 40 50 60 HT)))))).
Defined.

(** C6, as stated, fails: after the flush tick no overlay of the payload
    carries the position detected at [T + 250]. *)
Lemma three_detections_last_position_lost :
  let T := 1700000000000 in
  let s1 := handleBarCodeScanned (at_origin 10 20) ParseThrows T (initial true) in
  let s2 := handleBarCodeScanned (at_origin 30 40) ParseThrows (T + 100) s1 in
  let s3 := handleBarCodeScanned (at_origin 50 60) ParseThrows (T + 250) s2 in
  let s4 := flushTick (T + 400) s3 in
  ~ exists o, In o (overlays s4) /\
              id o = "x@epitech.eu"%string /\
              bounds o = computeBounds (at_origin 50 60).
Proof.
  cbv zeta. intros [o [Hin [_ Hb]]].
  vm_compute in Hin. destruct Hin as [<- | []]. discriminate Hb.
Qed.

(** ** Clear *)

Lemma nonempty_size_pos (p : string) (l : list string) :
  In p l -> (0 <? JsSet.size l) = true.
Proof. destruct l; [intros [] | reflexivity]. Qed.

Lemma flushTick_moves_buffer (now : Z) (s : World) (p : string) :
  In p (pendingBuffer s) -> In p (pendingEmails (flushTick now s)).
Proof.
  intros H. simpl. rewrite (nonempty_size_pos p _ H).
  apply unionPending_In. now left.
Qed.

(** C7.  Clear empties the pending set and leaves the dedup map, the
    detection buffer, the validated set and the overlays as they were.
    When a payload that is not validated is then detected, the dedup
    window having elapsed since the time recorded for it, the payload is
    in the pending set again after the flush tick that follows. *)
Theorem handleClearPending_frame :
  forall s : World,
    let c := handleClearPending s in
    pendingEmails c = [] /\
    lastSeenMap c = lastSeenMap s /\
    detectionBuffer c = detectionBuffer s /\
    validatedEmails c = validatedEmails s /\
    overlays c = overlays s /\
    (forall (result : Raw.BarcodeScanningResult) (parsed : Parsed)
            (now nowF : Z),
        let p := extractEmail parsed (Raw.data result) in
        isActive s = true -> isValidating s = false ->
        ~ In p (validatedEmails s) ->
        (forall t, JsMap.get p (lastSeenMap s) = Some t ->
                   DEDUP_WINDOW_MS <= now - t) ->
        In p (pendingBuffer (handleBarCodeScanned result parsed now c)) /\
        In p (pendingEmails
                (flushTick nowF (handleBarCodeScanned result parsed now c)))).
Proof.
  intros s c.
  split; [reflexivity |]. split; [reflexivity |]. split; [reflexivity |].
  split; [reflexivity |]. split; [reflexivity |].
  intros result parsed now nowF p Ha Hv Hnv Hw.
  assert (Hin : In p (pendingBuffer (handleBarCodeScanned result parsed now c))).
  { rewrite scan_processed; try assumption.
    - cbn [pendingBuffer]. fold p.
      apply has_false_iff in Hnv. subst c.
      cbn [validatedEmails handleClearPending pendingEmails pendingBuffer].
      rewrite Hnv. cbn. apply add_In. now left.
    - apply recentlyProcessed_elapsed. exact Hw. }
  split; [exact Hin |].
  now apply flushTick_moves_buffer.
Qed.

Lemma handleClearPending_frame_witness :
  pendingEmails (handleClearPending cleared_demo) = [] /\
  In "x@epitech.eu"%string
     (pendingEmails
        (flushTick 1700000000400
           (handleBarCodeScanned (at_origin 10 20) ParseThrows 1700000000300
              (handleClearPending cleared_demo)))).
Proof.
  assert (Ha : isActive cleared_demo = true) by reflexivity.
  assert (Hv : isValidating cleared_demo = false) by reflexivity.
  assert (Hnv : ~ In (extractEmail ParseThrows (Raw.data (at_origin 10 20)))
                     (validatedEmails cleared_demo))
    by (intros []).
  assert (Hw : forall t,
             JsMap.get (extractEmail ParseThrows (Raw.data (at_origin 10 20)))
               (lastSeenMap cleared_demo) = Some t ->
             DEDUP_WINDOW_MS <= 1700000000300 - t).
  { intros t Ht. vm_compute in Ht. injection Ht as <-.
    unfold DEDUP_WINDOW_MS. lia. }
  destruct (handleClearPending_frame cleared_demo) as [He [_ [_ [_ [_ H]]]]].
  split; [exact He |].
  exact (proj2 (H (at_origin 10 20) ParseThrows 1700000000300 1700000000400
                  Ha Hv Hnv Hw)).
Defined.

(** C10.  Clear leaves the pending buffer alone: a payload that sits in
    the pending buffer when Clear is pressed is in the pending set after
    the next flush tick, with no detection in between. *)
Theorem handleClearPending_keeps_buffer :
  forall (s : World) (now : Z),
    pendingBuffer (handleClearPending s) = pendingBuffer s /\
    forall p, In p (pendingBuffer s) ->
              In p (pendingEmails (flushTick now (handleClearPending s))).
Proof.
  intros s now. split; [reflexivity |].
  intros p Hp. now apply flushTick_moves_buffer.
Qed.

Lemma handleClearPending_keeps_buffer_witness :
  let s := handleBarCodeScanned (at_origin 10 20) ParseThrows 1700000000000
             (initial true) in
  pendingEmails (handleClearPending s) = [] /\
  In "x@epitech.eu"%string (pendingBuffer s) /\
  In "x@epitech.eu"%string
     (pendingEmails (flushTick 1700000000400 (handleClearPending s))).
Proof.
  cbv zeta. split; [reflexivity |].
  assert (Hin : In "x@epitech.eu"%string
                  (pendingBuffer
                     (handleBarCodeScanned (at_origin 10 20) ParseThrows
                        1700000000000 (initial true))))
    by (simpl; now left).
  split; [exact Hin |].
  exact (proj2 (handleClearPending_keeps_buffer _ 1700000000400) _ Hin).
Defined.

(** ** Flushing twice *)

Lemma filter_twice {A : Type} (f : A -> bool) (l : list A) :
  filter f (filter f l) = filter f l.
Proof.
  induction l as [|a l IH]; simpl; [reflexivity |].
  destruct (f a) eqn:E; simpl; [rewrite E; f_equal |]; exact IH.
Qed.

Lemma pruneOverlays_twice (cutoff : Z) (prev : list QROverlay) :
  pruneOverlays cutoff (pruneOverlays cutoff prev) = pruneOverlays cutoff prev.
Proof. rewrite !pruneOverlays_filter. apply filter_twice. Qed.

Lemma pruneLastSeen_twice (cutoff : Z) (m : list (string * Z)) :
  pruneLastSeen cutoff (pruneLastSeen cutoff m) = pruneLastSeen cutoff m.
Proof.
  unfold pruneLastSeen. destruct (50 <? JsMap.size m) eqn:E.
  - destruct (50 <? JsMap.size (filter _ m));
      [apply filter_twice | reflexivity].
  - now rewrite E.
Qed.

(** With an empty detection buffer the tick is a function of the
    overlays, the pending buffer and the dedup map only. *)
Lemma flushTick_empty_detection (now : Z) (s : World) :
  detectionBuffer s = [] ->
  flushTick now (flushTick now s) = flushTick now s.
Proof.
  intros Hd. unfold flushTick at 1.
  assert (Hd' : detectionBuffer (flushTick now s) = [])
    by (simpl; rewrite Hd; reflexivity).
  assert (Hp' : pendingBuffer (flushTick now s) = []).
  { simpl. destruct (0 <? JsSet.size (pendingBuffer s)) eqn:E;
      [reflexivity |]. unfold JsSet.size in E. now apply size_pos_iff in E. }
  rewrite Hd', Hp'. cbn [JsMap.size JsSet.size List.length Z.of_nat Z.ltb Z.compare].
  cbn [flushTick isActive overlays pendingEmails validatedEmails isValidating
       detectionBuffer pendingBuffer lastSeenMap onValidateCalls].
  rewrite Hd. cbn [JsMap.size List.length Z.of_nat Z.ltb Z.compare].
  rewrite pruneOverlays_twice, pruneLastSeen_twice.
  unfold flushTick. rewrite Hd.
  cbn [JsMap.size List.length Z.of_nat Z.ltb Z.compare].
  destruct (0 <? JsSet.size (pendingBuffer s)) eqn:E; [reflexivity |].
  unfold JsSet.size in E. apply size_pos_iff in E. now rewrite E.
Qed.

(** C8.  With both buffers empty, a second flush tick at the same time
    leaves the whole state (overlays, pending and validated sets, dedup
    map, buffers) as the first one left it. *)
Theorem flushTick_twice :
  forall (now : Z) (s : World),
    detectionBuffer s = [] -> pendingBuffer s = [] ->
    flushTick now (flushTick now s) = flushTick now s.
Proof.
  intros now s Hd _. now apply flushTick_empty_detection.
Qed.

Lemma flushTick_twice_witness :
  detectionBuffer stale_demo = [] /\ pendingBuffer stale_demo = [] /\
  flushTick 1700000002800 stale_demo <> stale_demo /\
  flushTick 1700000002800 (flushTick 1700000002800 stale_demo) =
  flushTick 1700000002800 stale_demo.
Proof.
  assert (Hd : detectionBuffer stale_demo = []) by reflexivity.
  assert (Hp : pendingBuffer stale_demo = []) by reflexivity.
  split; [exact Hd |]. split; [exact Hp |]. split.
  - intros H. apply (f_equal (fun w => List.length (overlays w))) in H.
    vm_compute in H. discriminate H.
  - exact (flushTick_twice 1700000002800 stale_demo Hd Hp).
Defined.

(** ** Payload extraction, default bounds and rendering *)

Lemma overlayElements_flat_map (ovs : list QROverlay) :
  overlayElements ovs = flat_map renderBox ovs.
Proof.
  unfold overlayElements.
  assert (H : forall acc,
             fold_left
               (fun elements o =>
                  if (width (bounds o) =? 0) || (height (bounds o) =? 0)
                  then elements
                  else elements ++
                       [{| key := id o;
                           left := x (bounds o);
                           top := y (bounds o) - 25;
                           boxWidth := width (bounds o);
                           boxHeight := height (bounds o);
                           boxProcessed := processed o |}])
               ovs acc = acc ++ flat_map renderBox ovs).
  { induction ovs as [|o ovs IH]; intros acc; simpl.
    - now rewrite app_nil_r.
    - rewrite IH. unfold renderBox.
      destruct ((width (bounds o) =? 0) || (height (bounds o) =? 0));
        [reflexivity | now rewrite <- app_assoc]. }
  apply (H []).
Qed.

(** Case analysis on the truthiness tests of a value. *)
Ltac truthy_cases :=
  cbn;
  repeat match goal with
         | |- context [PrimFloat.eqb ?x 0] => destruct (PrimFloat.eqb x 0); cbn
         | |- context [PrimFloat.is_nan ?x] => destruct (PrimFloat.is_nan x); cbn
         | |- context [if ?b then _ else _] => destruct b eqn:?; cbn
         end.

Ltac typed_view :=
  truthy_cases; try discriminate; intros [= <-]; cbn;
  unfold extractEmail, tryExtract, js_or, truthy;
  repeat match goal with
         | H : _ = _ |- _ => rewrite H
         end; cbn; reflexivity.

(** The typed view of a document is exact: whenever the answer of
    [JSON.parse] has one, the payload is the string that [extractEmail]
    computes from it. *)
Lemma extractEmail_exact (answer : option Json) (parsed : Parsed)
    (data : string) :
  parsedView answer = Some parsed ->
  extractPayload answer data = JString (extractEmail parsed data).
Proof.
  unfold parsedView, extractPayload, tryPayload.
  destruct answer as [[| b | x | t | items | members] |];
    try (intros [= <-]; reflexivity).
  cbn [getMember].
  destruct (JsMap.get "email" members) as [email |] eqn:Ee;
    destruct (JsMap.get "Email" members) as [Email |] eqn:EE.
  - destruct email; destruct Email; typed_view.
  - destruct email; typed_view.
  - destruct Email; typed_view.
  - cbn. intros [= <-]. reflexivity.
Qed.

Lemma computeBounds_defaults (result : Raw.BarcodeScanningResult) :
  (Raw.bounds result = None -> computeBounds result = zeroBounds) /\
  (forall b, Raw.bounds result = Some b -> Raw.origin b = None ->
             x (computeBounds result) = 0 /\ y (computeBounds result) = 0) /\
  (forall b, Raw.bounds result = Some b -> Raw.size b = None ->
             width (computeBounds result) = 0 /\
             height (computeBounds result) = 0).
Proof.
  unfold computeBounds. split; [now intros -> |].
  split; intros b -> ->; now split.
Qed.

Lemma overlayElements_nonzero (ovs : list QROverlay) :
  (forall e, In e (overlayElements ovs) ->
             boxWidth e <> 0 /\ boxHeight e <> 0 /\
             exists o, In o ovs /\ key e = id o /\
                       boxWidth e = width (bounds o) /\
                       boxHeight e = height (bounds o)) /\
  (forall o, In o ovs ->
             width (bounds o) <> 0 -> height (bounds o) <> 0 ->
             exists e, In e (overlayElements ovs) /\ key e = id o).
Proof.
  split.
  - intros e He. rewrite overlayElements_flat_map in He.
    apply in_flat_map in He. destruct He as [o [Ho He]].
    unfold renderBox in He.
    destruct (width (bounds o) =? 0) eqn:Ew; [destruct He |].
    destruct (height (bounds o) =? 0) eqn:Eh; [destruct He |].
    destruct He as [<- | []]. simpl.
    apply Z.eqb_neq in Ew, Eh. repeat split; try assumption.
    exists o. now repeat split.
  - intros o Ho Hw Hh. rewrite overlayElements_flat_map.
    apply Z.eqb_neq in Hw, Hh.
    eexists. split.
    + apply in_flat_map. exists o. split; [exact Ho |].
      unfold renderBox. rewrite Hw, Hh. left. reflexivity.
    + reflexivity.
Qed.

(** C9, as the code has it.  Whatever [JSON.parse] answers, extraction
    yields a payload.  When the answer is an object, the payload is the
    value of its [email] field if that value is truthy, else the value
    of its [Email] field if that one is truthy, else the raw string; a
    truthy value is the payload whatever its type (a number, [true], an
    array), and a field that is present but falsy (an empty string, [0],
    [false], [null]) is passed over.  When the answer is not an object,
    or [JSON.parse] or the field access throws, the payload is the raw
    string.  A missing piece of the bounding region defaults to [0], a
    result without bounds gives the zero-sized region, and the renderer
    skips every overlay whose width or height is [0] and draws every
    other one. *)
Theorem payload_is_first_truthy_field :
  forall (answer : option Json) (data : string)
         (result : Raw.BarcodeScanningResult) (ovs : list QROverlay),
    (forall members v,
        answer = Some (JObject members) ->
        JsMap.get "email" members = Some v -> jsTruthy (Some v) = true ->
        extractPayload answer data = v) /\
    (forall members v,
        answer = Some (JObject members) ->
        jsTruthy (JsMap.get "email" members) = false ->
        JsMap.get "Email" members = Some v -> jsTruthy (Some v) = true ->
        extractPayload answer data = v) /\
    (forall members,
        answer = Some (JObject members) ->
        jsTruthy (JsMap.get "email" members) = false ->
        jsTruthy (JsMap.get "Email" members) = false ->
        extractPayload answer data = JString data) /\
    (forall v,
        answer = Some v -> (forall members, v <> JObject members) ->
        extractPayload answer data = JString data) /\
    (answer = None -> extractPayload answer data = JString data) /\
    (tryPayload answer data = None <->
     answer = None \/ answer = Some JNull) /\
    (Raw.bounds result = None -> computeBounds result = zeroBounds) /\
    (forall b, Raw.bounds result = Some b -> Raw.origin b = None ->
               x (computeBounds result) = 0 /\ y (computeBounds result) = 0) /\
    (forall b, Raw.bounds result = Some b -> Raw.size b = None ->
               width (computeBounds result) = 0 /\
               height (computeBounds result) = 0) /\
    (forall e, In e (overlayElements ovs) ->
               boxWidth e <> 0 /\ boxHeight e <> 0 /\
               exists o, In o ovs /\ key e = id o /\
                         boxWidth e = width (bounds o) /\
                         boxHeight e = height (bounds o)) /\
    (forall o, In o ovs ->
               width (bounds o) <> 0 -> height (bounds o) <> 0 ->
               exists e, In e (overlayElements ovs) /\ key e = id o).
Proof.
  intros answer data result ovs.
  split; [| split; [| split; [| split; [| split; [| split]]]]].
  - intros members v -> Hget Hv.
    unfold extractPayload, tryPayload. cbn [getMember].
    now rewrite Hget, Hv.
  - intros members v -> He Hget Hv.
    unfold extractPayload, tryPayload. cbn [getMember].
    now rewrite He, Hget, Hv.
  - intros members -> He HE.
    unfold extractPayload, tryPayload. cbn [getMember].
    now rewrite He, HE.
  - intros v -> Hv. destruct v; try reflexivity.
    exfalso. now apply (Hv members).
  - now intros ->.
  - unfold tryPayload.
    destruct answer as [[| b | x | t | items | members] |]; cbn [getMember];
      try (cbn; split; [discriminate | intros [H | H]; discriminate]).
    + split; [now right | reflexivity].
    + split; [| intros [H | H]; discriminate].
      destruct (JsMap.get "email" members) as [email |];
        destruct (JsMap.get "Email" members) as [Email |];
        try destruct email; try destruct Email; truthy_cases; discriminate.
    + split; [now left | reflexivity].
  - destruct (computeBounds_defaults result) as [H1 [H2 H3]].
    destruct (overlayElements_nonzero ovs) as [H4 H5].
    split; [exact H1 |]. split; [exact H2 |]. split; [exact H3 |].
    split; [exact H4 | exact H5].
Qed.

(** On a QR code whose text is a JSON object with the number [42] in
    its [email] field the payload is that number; a result without
    bounds gives the zero-sized region, which the renderer skips. *)
Lemma payload_is_first_truthy_field_witness :
  let answer := Some (JObject [("email"%string, JNumber 42%float)]) in
  let data := ("{" ++ quote ++ "email" ++ quote ++ ":42}")%string in
  extractPayload answer data = JNumber 42%float /\
  computeBounds {| Raw.data := data; Raw.bounds := None |} = zeroBounds /\
  overlayElements
    [ {| id := "x@epitech.eu"; text := "x@epitech.eu";
         bounds := computeBounds {| Raw.data := data; Raw.bounds := None |};
         lastSeen := 1700000000000; processed := false |} ] = [].
Proof.
  cbv zeta.
  pose proof (payload_is_first_truthy_field
                (Some (JObject [("email"%string, JNumber 42%float)]))
                ("{" ++ quote ++ "email" ++ quote ++ ":42}")%string
                {| Raw.data := ("{" ++ quote ++ "email" ++ quote ++ ":42}")%string;
                   Raw.bounds := None |} [])
    as [H1 [_ [_ [_ [_ [_ [H7 _]]]]]]].
  split.
  - apply (H1 [("email"%string, JNumber 42%float)]); reflexivity.
  - split; [apply H7; reflexivity | reflexivity].
Defined.

(** C9, as stated, fails on a document that has an [email] field whose
    value is the empty string: the payload is the raw text, not the
    field. *)
Lemma payload_skips_empty_email_field :
  let answer := Some (JObject [("email"%string, JString EmptyString)]) in
  let payload := extractPayload answer empty_email_qr in
  JsMap.get "email" [("email"%string, JString EmptyString)]
    = Some (JString EmptyString) /\
  payload <> JString EmptyString /\
  payload = JString empty_email_qr.
Proof.
  cbv zeta. split; [reflexivity |]. split; [| reflexivity].
  vm_compute. discriminate.
Qed.

(** * More of the component *)

(** ** Lists kept as sets and maps *)

Lemma add_NoDup (e : string) (s : list string) :
  NoDup s -> NoDup (JsSet.add e s).
Proof.
  intros H. unfold JsSet.add. destruct (JsSet.has e s) eqn:E; [exact H |].
  apply has_false_iff in E. apply NoDup_app; [exact H | | ].
  - constructor; [intros [] | constructor].
  - intros x Hx [<- | []]. contradiction.
Qed.

Lemma fold_add_NoDup (l acc : list string) :
  NoDup acc -> NoDup (fold_left (fun next e => JsSet.add e next) l acc).
Proof.
  revert acc. induction l as [|e l IH]; intros acc H; simpl;
    [exact H | apply IH, add_NoDup, H].
Qed.

Lemma set_In {V : Type} (k : string) (v : V) (m : list (string * V))
    (kv : string * V) :
  In kv (JsMap.set k v m) -> kv = (k, v) \/ In kv m.
Proof.
  induction m as [|[k0 v0] m IH]; simpl.
  - intros [<- | []]. now left.
  - destruct (String.eqb k k0) eqn:E; simpl.
    + apply String.eqb_eq in E. subst k0.
      intros [<- | H]; [now left | now right; right].
    + intros [<- | H]; [now right; left |].
      destruct (IH H) as [-> | H']; [now left | now right; right].
Qed.

Lemma set_keys_In {V : Type} (k k' : string) (v : V) (m : list (string * V)) :
  In k' (map fst (JsMap.set k v m)) <-> k' = k \/ In k' (map fst m).
Proof.
  induction m as [|[k0 v0] m IH]; simpl.
  - intuition congruence.
  - destruct (String.eqb k k0) eqn:E; simpl.
    + apply String.eqb_eq in E. subst k0. intuition congruence.
    + rewrite IH. intuition congruence.
Qed.

Lemma set_keys_NoDup {V : Type} (k : string) (v : V) (m : list (string * V)) :
  NoDup (map fst m) -> NoDup (map fst (JsMap.set k v m)).
Proof.
  induction m as [|[k0 v0] m IH]; simpl; intros H.
  - constructor; [intros [] | constructor].
  - inversion H as [|? ? Hnotin Hnd]; subst.
    destruct (String.eqb k k0) eqn:E; simpl.
    + now constructor.
    + constructor; [| now apply IH].
      rewrite set_keys_In. intros [-> | Hin]; [| contradiction].
      now rewrite String.eqb_refl in E.
Qed.

Lemma get_In {V : Type} (k : string) (v : V) (m : list (string * V)) :
  JsMap.get k m = Some v -> In (k, v) m.
Proof.
  induction m as [|[k0 v0] m IH]; simpl; [discriminate |].
  destruct (String.eqb k k0) eqn:E.
  - apply String.eqb_eq in E. subst k0. intros [= <-]. now left.
  - intros H. right. now apply IH.
Qed.

Lemma get_absent {V : Type} (k : string) (m : list (string * V)) :
  ~ In k (map fst m) -> JsMap.get k m = None.
Proof.
  induction m as [|[k0 v0] m IH]; simpl; [reflexivity |].
  intros H. destruct (String.eqb k k0) eqn:E.
  - apply String.eqb_eq in E. subst k0. exfalso. apply H. now left.
  - apply IH. intros Hin. apply H. now right.
Qed.

Lemma filter_keys_NoDup {A B : Type} (f : A -> B) (g : A -> bool) (l : list A) :
  NoDup (map f l) -> NoDup (map f (filter g l)).
Proof.
  induction l as [|a l IH]; simpl; intros H; [constructor |].
  inversion H as [|? ? Hnotin Hnd]; subst.
  destruct (g a); simpl; [| now apply IH].
  constructor; [| now apply IH].
  intros Hin. apply Hnotin. apply in_map_iff in Hin.
  destruct Hin as [b [Hb Hin]]. apply filter_In in Hin.
  apply in_map_iff. exists b. tauto.
Qed.

Lemma NoDup_map_inj {A B : Type} (f : A -> B) (l : list A) (a b : A) :
  NoDup (map f l) -> In a l -> In b l -> f a = f b -> a = b.
Proof.
  induction l as [|c l IH]; simpl; [intros _ [] |].
  intros H Ha Hb Hf. inversion H as [|? ? Hnotin Hnd]; subst.
  destruct Ha as [-> | Ha]; destruct Hb as [-> | Hb].
  - reflexivity.
  - exfalso. apply Hnotin. rewrite Hf. now apply in_map.
  - exfalso. apply Hnotin. rewrite <- Hf. now apply in_map.
  - now apply IH.
Qed.

Lemma get_filter (g : string * Z -> bool) (k : string) (m : list (string * Z)) :
  NoDup (map fst m) ->
  JsMap.get k (filter g m) =
  match JsMap.get k m with
  | Some t => if g (k, t) then Some t else None
  | None => None
  end.
Proof.
  induction m as [|[k0 t0] m IH]; simpl; [reflexivity |].
  intros H. inversion H as [|? ? Hnotin Hnd]; subst.
  destruct (String.eqb k k0) eqn:E.
  - apply String.eqb_eq in E. subst k0.
    destruct (g (k, t0)); simpl.
    + now rewrite String.eqb_refl.
    + apply get_absent. intros Hin. apply Hnotin.
      apply in_map_iff in Hin. destruct Hin as [b [Hb Hin]].
      apply filter_In in Hin. apply in_map_iff. exists b. tauto.
  - destruct (g (k0, t0)); simpl; [rewrite E |]; now apply IH.
Qed.

(** ** The merge of the flush tick *)

Section Merge.
Variable Q : string * QROverlay -> Prop.

Lemma set_all (k : string) (o : QROverlay) (m : list (string * QROverlay)) :
  (forall ko, In ko m -> Q ko) -> Q (k, o) ->
  forall ko, In ko (JsMap.set k o m) -> Q ko.
Proof.
  intros Hm Hk ko Hin. apply set_In in Hin.
  destruct Hin as [-> | Hin]; [exact Hk | now apply Hm].
Qed.

Lemma merge_prev_all (cutoff : Z) (prev : list QROverlay)
    (m : list (string * QROverlay)) :
  NoDup (map fst m) -> (forall ko, In ko m -> Q ko) ->
  (forall o, In o prev -> Q (id o, o)) ->
  NoDup (map fst
           (fold_left
              (fun m o => if cutoff <? lastSeen o then JsMap.set (id o) o m else m)
              prev m)) /\
  forall ko,
    In ko (fold_left
             (fun m o => if cutoff <? lastSeen o then JsMap.set (id o) o m else m)
             prev m) -> Q ko.
Proof.
  revert m. induction prev as [|a prev IH]; intros m Hnd Hm Hprev; simpl.
  - now split.
  - apply IH.
    + destruct (cutoff <? lastSeen a); [now apply set_keys_NoDup | exact Hnd].
    + destruct (cutoff <? lastSeen a); [| exact Hm].
      apply set_all; [exact Hm | apply Hprev; now left].
    + intros o Ho. apply Hprev. now right.
Qed.

Lemma merge_snapshot_all (snapshot m : list (string * QROverlay)) :
  NoDup (map fst m) -> (forall ko, In ko m -> Q ko) ->
  (forall ko, In ko snapshot -> Q ko) ->
  NoDup (map fst
           (fold_left (fun m ko => JsMap.set (fst ko) (snd ko) m) snapshot m)) /\
  forall ko,
    In ko (fold_left (fun m ko => JsMap.set (fst ko) (snd ko) m) snapshot m) ->
    Q ko.
Proof.
  revert m. induction snapshot as [|[k o] snapshot IH]; intros m Hnd Hm Hs; simpl.
  - now split.
  - apply IH.
    + now apply set_keys_NoDup.
    + apply set_all; [exact Hm | apply (Hs (k, o)); now left].
    + intros ko Hko. apply Hs. now right.
Qed.

End Merge.

Lemma keyed_values_ids (m : list (string * QROverlay)) :
  (forall ko, In ko m -> keyed ko) -> map id (JsMap.values m) = map fst m.
Proof.
  unfold JsMap.values. induction m as [|[k o] m IH]; simpl; intros H;
    [reflexivity |].
  f_equal.
  - apply (H (k, o)). now left.
  - apply IH. intros ko Hko. apply H. now right.
Qed.

Lemma merge_snapshot_get (snapshot m : list (string * QROverlay)) (k : string) :
  NoDup (map fst snapshot) ->
  JsMap.get k
    (fold_left (fun m ko => JsMap.set (fst ko) (snd ko) m) snapshot m) =
  match JsMap.get k snapshot with
  | Some o => Some o
  | None => JsMap.get k m
  end.
Proof.
  revert m. induction snapshot as [|[k1 o1] snapshot IH]; intros m Hnd;
    [reflexivity |].
  simpl in *. inversion Hnd as [|? ? Hnotin Hnd']; subst.
  rewrite IH by exact Hnd'.
  destruct (String.eqb k k1) eqn:E.
  - apply String.eqb_eq in E. subst k1.
    rewrite (get_absent k snapshot Hnotin). apply get_set_same.
  - destruct (JsMap.get k snapshot); [reflexivity |].
    apply get_set_other. intros ->. now rewrite String.eqb_refl in E.
Qed.

Lemma merged_map (Q : string * QROverlay -> Prop) (cutoff : Z)
    (snapshot : list (string * QROverlay)) (prev : list QROverlay) :
  (forall o, In o prev -> Q (id o, o)) ->
  (forall ko, In ko snapshot -> Q ko) ->
  exists m,
    mergeOverlays cutoff snapshot prev = JsMap.values m /\
    NoDup (map fst m) /\
    (forall ko, In ko m -> Q ko) /\
    (NoDup (map fst snapshot) ->
     forall k o, JsMap.get k snapshot = Some o -> JsMap.get k m = Some o).
Proof.
  intros Hprev Hsnap. unfold mergeOverlays.
  destruct (merge_prev_all Q cutoff prev []) as [Hnd0 Hq0];
    [constructor | intros ko [] | exact Hprev |].
  destruct (merge_snapshot_all Q snapshot _ Hnd0 Hq0 Hsnap) as [Hnd Hq].
  eexists. split; [reflexivity |]. split; [exact Hnd |]. split; [exact Hq |].
  intros Hk k o Hget. rewrite merge_snapshot_get by exact Hk.
  now rewrite Hget.
Qed.

(** ** The shape of the reachable states *)

Lemma Shape_initial (active : bool) : Shape (initial active).
Proof.
  split; simpl; try constructor; try (intros ? []); tauto.
Qed.

Lemma Shape_scan result parsed now (s : World) :
  Shape s -> Shape (handleBarCodeScanned result parsed now s).
Proof.
  intros H. scan_gate s now; [exact H | exact H |].
  destruct H. set (email := extractEmail parsed (Raw.data result)).
  split; cbn [pendingEmails validatedEmails pendingBuffer onValidateCalls
              overlays detectionBuffer lastSeenMap submitted]; try assumption.
  - destruct (negb (JsSet.has email (validatedEmails s)) &&
              negb (JsSet.has email (pendingEmails s)));
      [now apply add_NoDup | assumption].
  - now apply set_keys_NoDup.
  - intros ko Hko. apply set_In in Hko.
    destruct Hko as [-> | Hko]; [now split | now apply shape_detection_keyed0].
  - intros ko Hko Hp. apply set_In in Hko.
    destruct Hko as [-> | Hko]; [| now apply shape_detection_processed0].
    simpl in *. now apply has_true_iff.
  - now apply set_keys_NoDup.
Qed.

Lemma Shape_flush now (s : World) : Shape s -> Shape (flushTick now s).
Proof.
  intros H. destruct H.
  assert (Hov :
    NoDup (map id (overlays (flushTick now s))) /\
    (forall o, In o (overlays (flushTick now s)) -> text o = id o) /\
    (forall o, In o (overlays (flushTick now s)) -> processed o = true ->
               In (id o) (validatedEmails s))).
  { cbn [flushTick overlays].
    destruct (0 <? JsMap.size (detectionBuffer s)).
    - destruct (merged_map
                  (fun ko => keyed ko /\
                             (processed (snd ko) = true ->
                              In (fst ko) (validatedEmails s)))
                  (now - OVERLAY_TTL_MS) (detectionBuffer s) (overlays s))
        as [m [Heq [Hnd [Hq _]]]].
      + intros o Ho. split; [split; [reflexivity | now apply shape_overlay_text0] |].
        now apply shape_overlay_processed0.
      + intros ko Hko. split; [now apply shape_detection_keyed0 |].
        now apply shape_detection_processed0.
      + rewrite Heq.
        assert (Hkeyed : forall ko, In ko m -> keyed ko)
          by (intros ko Hko; apply (Hq ko Hko)).
        rewrite (keyed_values_ids m Hkeyed).
        split; [exact Hnd |].
        split; intros o Ho; apply in_map_iff in Ho;
          destruct Ho as [[k o'] [Ho' Hin]]; simpl in Ho'; subst o';
          destruct (Hq _ Hin) as [[Hid Htx] Hp]; simpl in *.
        * congruence.
        * intros Hpr. rewrite Hid. now apply Hp.
    - rewrite pruneOverlays_filter. split; [now apply filter_keys_NoDup |].
      split; intros o Ho; apply filter_In in Ho;
        [now apply shape_overlay_text0 | now apply shape_overlay_processed0]. }
  destruct Hov as [Hov1 [Hov2 Hov3]].
  split; try assumption;
    cbn [flushTick pendingEmails validatedEmails pendingBuffer onValidateCalls
         detectionBuffer lastSeenMap submitted].
  - destruct (0 <? JsSet.size (pendingBuffer s)); [| assumption].
    rewrite unionPending_fold. now apply fold_add_NoDup.
  - destruct (0 <? JsSet.size (pendingBuffer s)); [constructor | assumption].
  - destruct (0 <? JsMap.size (detectionBuffer s)); [constructor | assumption].
  - destruct (0 <? JsMap.size (detectionBuffer s));
      [intros ko [] | assumption].
  - destruct (0 <? JsMap.size (detectionBuffer s));
      [intros ko [] | assumption].
  - unfold pruneLastSeen. destruct (50 <? JsMap.size (lastSeenMap s));
      [now apply filter_keys_NoDup | assumption].
Qed.

Lemma Shape_validate (s : World) : Inv s -> Shape s -> Shape (handleValidate s).
Proof.
  intros HI H. unfold handleValidate.
  destruct (JsSet.size (pendingEmails s) =? 0) eqn:Esize;
    [exact H |].
  destruct (isValidating s); [exact H |]. cbn [orb].
  assert (Hne : pendingEmails s <> []).
  { intros Hnil. rewrite Hnil in Esize. discriminate. }
  destruct H, HI.
  assert (Hsub : submitted
                   {| isActive := isActive s; overlays := [];
                      pendingEmails := []; validatedEmails := [];
                      isValidating := false; detectionBuffer := [];
                      pendingBuffer := []; lastSeenMap := [];
                      onValidateCalls := onValidateCalls s ++ [pendingEmails s] |}
                 = submitted s ++ pendingEmails s).
  { unfold submitted. cbn [onValidateCalls]. rewrite concat_app. simpl.
    now rewrite app_nil_r. }
  split; cbn [pendingEmails validatedEmails pendingBuffer onValidateCalls
              overlays detectionBuffer lastSeenMap]; try assumption.
  - constructor.
  - now apply fold_add_NoDup.
  - unfold submitted in *. cbn [onValidateCalls] in *. rewrite Hsub.
    apply NoDup_app; try assumption.
    intros p Hp Hp'. apply shape_submitted0 in Hp.
    now apply (inv_validated_pending0 p).
  - intros emails Hin. apply in_app_iff in Hin.
    destruct Hin as [Hin | [<- | []]];
      [now apply shape_calls_nonempty0 | exact Hne].
  - intros p. unfold submitted in *. cbn [onValidateCalls] in *.
    rewrite Hsub, in_app_iff, fold_add_In, shape_submitted0. tauto.
  - rewrite map_map. exact shape_overlay_ids0.
  - intros o Ho. apply in_map_iff in Ho. destruct Ho as [o0 [<- Ho]].
    simpl. now apply shape_overlay_text0.
  - intros o Ho Hp. apply in_map_iff in Ho. destruct Ho as [o0 [<- Ho]].
    simpl in *. apply fold_add_In. apply orb_true_iff in Hp.
    destruct Hp as [Hp | Hp];
      [left; now apply has_true_iff
      | right; now apply shape_overlay_processed0].
  - intros ko Hko Hp. apply fold_add_In. right.
    now apply shape_detection_processed0.
Qed.

Lemma Shape_clear (s : World) : Shape s -> Shape (handleClearPending s).
Proof. intros []. split; try assumption. constructor. Qed.

Lemma Shape_setActive active (s : World) : Shape s -> Shape (setActive active s).
Proof. intros []. now split. Qed.

Lemma Shape_step (s : World) (e : Event) :
  Inv s -> Shape s -> Shape (step s e).
Proof.
  intros HI H. destruct e; simpl.
  - now apply Shape_scan.
  - now apply Shape_flush.
  - now apply Shape_validate.
  - now apply Shape_clear.
  - now apply Shape_setActive.
Qed.

Lemma Shape_run (events : list Event) (s : World) :
  Inv s -> Shape s -> Shape (run events s).
Proof.
  revert s. induction events as [|e events IH]; intros s HI H; simpl.
  - exact H.
  - apply IH; [now apply Inv_step | now apply Shape_step].
Qed.

Lemma reachable_shape (active : bool) (events : list Event) :
  Inv (run events (initial active)) /\ Shape (run events (initial active)).
Proof.
  split; [apply Inv_run, Inv_initial |].
  apply Shape_run; [apply Inv_initial | apply Shape_initial].
Qed.

(** ** What is handed to [onValidate] *)

Lemma NoDup_concat_In {A : Type} (l : list (list A)) (x : list A) :
  NoDup (List.concat l) -> In x l -> NoDup x.
Proof.
  induction l as [|a l IH]; simpl; [intros _ [] |].
  intros H [-> | Hin].
  - now apply NoDup_app_remove_r in H.
  - apply IH; [| exact Hin]. now apply NoDup_app_remove_l in H.
Qed.

(** ** Overlays and what is drawn *)

Lemma overlayElements_In (ovs : list QROverlay) (e : OverlayElement) :
  In e (overlayElements ovs) ->
  exists o, In o ovs /\ key e = id o /\ boxProcessed e = processed o.
Proof.
  rewrite overlayElements_flat_map. intros He.
  apply in_flat_map in He. destruct He as [o [Ho He]].
  unfold renderBox in He.
  destruct ((width (bounds o) =? 0) || (height (bounds o) =? 0));
    [destruct He |].
  destruct He as [<- | []]. exists o. now repeat split.
Qed.

(** X5.  In every reachable state an overlay flagged processed, and so
    every box drawn as processed, belongs to a validated payload. *)
Theorem processed_only_if_validated :
  forall (active : bool) (events : list Event),
    let s := run events (initial active) in
    (forall o, In o (overlays s) -> processed o = true ->
               In (id o) (validatedEmails s)) /\
    (forall e, In e (overlayElements (overlays s)) -> boxProcessed e = true ->
               In (key e) (validatedEmails s)).
Proof.
  intros active events s.
  destruct (reachable_shape active events) as [_ H]. fold s in H.
  split; [apply H |].
  intros e He Hp. apply overlayElements_In in He.
  destruct He as [o [Ho [-> Hpo]]]. apply (shape_overlay_processed _ H o Ho).
  congruence.
Qed.

(** X6.  From a reachable state, a flush tick puts the detection-buffer
    entry of every buffered payload into the overlays, whatever its age,
    and it is the only overlay with that id: the fresh entry replaces the
    overlay the payload had before. *)
Theorem flushTick_buffer_entry_wins :
  forall (active : bool) (events : list Event) (now : Z)
         (k : string) (o : QROverlay),
    let s := run events (initial active) in
    JsMap.get k (detectionBuffer s) = Some o ->
    In o (overlays (flushTick now s)) /\
    forall o', In o' (overlays (flushTick now s)) -> id o' = k -> o' = o.
Proof.
  intros active events now k o s Hget.
  destruct (reachable_shape active events) as [_ H]. fold s in H.
  assert (H' : Shape (flushTick now s)) by now apply Shape_flush.
  assert (Hid : id o = k).
  { apply get_In in Hget. apply (shape_detection_keyed _ H) in Hget.
    apply Hget. }
  assert (Hin : In o (overlays (flushTick now s))).
  { cbn [flushTick overlays].
    destruct (detectionBuffer s) as [|ko buffer] eqn:Ebuf; [discriminate |].
    replace (0 <? JsMap.size (ko :: buffer)) with true by reflexivity.
    destruct (merged_map (fun _ => True) (now - OVERLAY_TTL_MS)
                (ko :: buffer) (overlays s))
      as [m [Heq [_ [_ Hlook]]]]; try (intros; exact I).
    rewrite Heq. rewrite <- Ebuf in Hlook.
    specialize (Hlook (shape_detection_keys _ H) k o).
    rewrite Ebuf in Hlook. apply Hlook in Hget. apply get_In in Hget.
    unfold JsMap.values. apply in_map_iff. now exists (k, o). }
  split; [exact Hin |].
  intros o' Ho' Hid'.
  apply (NoDup_map_inj id (overlays (flushTick now s)));
    [apply H' | exact Ho' | exact Hin | congruence].
Qed.

Lemma flushTick_buffer_entry_wins_witness :
  let s := run [ Scan (at_origin 10 20) ParseThrows 1700000000000;
                 Flush 1700000000400;
                 Scan (at_origin 30 40) ParseThrows 1700000000500 ]
               (initial true) in
  let o := {| id := "x@epitech.eu"; text := "x@epitech.eu";
              bounds := {| x := 30; y := 40; width := 90; height := 90 |};
              lastSeen := 1700000000500; processed := false |} in
  map bounds (overlays s) = [ {| x := 10; y := 20; width := 90; height := 90 |} ] /\
  JsMap.get "x@epitech.eu"%string (detectionBuffer s) = Some o /\
  In o (overlays (flushTick 1700000000800 s)).
Proof.
  cbv zeta. split; [reflexivity |].
  assert (Hget : JsMap.get "x@epitech.eu"%string
                   (detectionBuffer
                      (run [ Scan (at_origin 10 20) ParseThrows 1700000000000;
                             Flush 1700000000400;
                             Scan (at_origin 30 40) ParseThrows 1700000000500 ]
                           (initial true))) =
                 Some {| id := "x@epitech.eu"; text := "x@epitech.eu";
                         bounds := {| x := 30; y := 40; width := 90; height := 90 |};
                         lastSeen := 1700000000500; processed := false |})
    by reflexivity.
  split; [exact Hget |].
  exact (proj1 (flushTick_buffer_entry_wins true _ 1700000000800 _ _ Hget)).
Defined.

(** ** The flush tick and the other handlers *)

Lemma fold_add_new (l acc : list string) :
  exists new,
    fold_left (fun next e => JsSet.add e next) l acc = acc ++ new /\
    forall p, In p new -> In p l.
Proof.
  revert acc. induction l as [|e l IH]; intros acc; simpl.
  - exists []. split; [now rewrite app_nil_r | intros p []].
  - destruct (IH (JsSet.add e acc)) as [new [Hnew Hsub]]. rewrite Hnew.
    unfold JsSet.add. destruct (JsSet.has e acc).
    + exists new. split; [reflexivity | intros p Hp; right; now apply Hsub].
    + exists ([e] ++ new). split; [now rewrite app_assoc |].
      intros p [<- | Hp]; [now left | right; now apply Hsub].
Qed.

(** X7.  A flush tick leaves both buffers empty, keeps the pending set
    as a prefix and appends to it payloads of the pending buffer only,
    so that every buffered payload is pending afterwards; it changes
    neither the validated set nor the calls made to [onValidate]. *)
Theorem flushTick_drains_buffers :
  forall (now : Z) (s : World),
    let s' := flushTick now s in
    detectionBuffer s' = [] /\
    pendingBuffer s' = [] /\
    (exists new, pendingEmails s' = pendingEmails s ++ new /\
                 forall p, In p new -> In p (pendingBuffer s)) /\
    (forall p, In p (pendingBuffer s) -> In p (pendingEmails s')) /\
    validatedEmails s' = validatedEmails s /\
    onValidateCalls s' = onValidateCalls s.
Proof.
  intros now s s'. subst s'.
  split; [| split; [| split; [| split; [| split; reflexivity]]]].
  - cbn [flushTick detectionBuffer].
    destruct (detectionBuffer s); reflexivity.
  - cbn [flushTick pendingBuffer].
    destruct (pendingBuffer s); reflexivity.
  - cbn [flushTick pendingEmails].
    destruct (0 <? JsSet.size (pendingBuffer s)).
    + rewrite unionPending_fold. apply fold_add_new.
    + exists []. split; [now rewrite app_nil_r | intros p []].
  - intros p Hp. now apply flushTick_moves_buffer.
Qed.

(** X8.  From a reachable state, pruning the dedup map in a flush tick
    does not change what the dedup filter answers to any detection that
    comes at or after the time of the tick. *)
Theorem pruning_keeps_dedup_answers :
  forall (active : bool) (events : list Event) (nowF now : Z) (k : string),
    let s := run events (initial active) in
    nowF <= now ->
    recentlyProcessed (JsMap.get k (lastSeenMap (flushTick nowF s))) now =
    recentlyProcessed (JsMap.get k (lastSeenMap s)) now.
Proof.
  intros active events nowF now k s Hle.
  destruct (reachable_shape active events) as [_ H]. fold s in H.
  cbn [flushTick lastSeenMap]. unfold pruneLastSeen.
  destruct (50 <? JsMap.size (lastSeenMap s)); [| reflexivity].
  rewrite get_filter by apply H.
  destruct (JsMap.get k (lastSeenMap s)) as [t |]; [| reflexivity].
  cbn [snd]. destruct (t <? nowF - OVERLAY_TTL_MS) eqn:E; [| reflexivity].
  cbn [negb]. apply Z.ltb_lt in E. unfold recentlyProcessed.
  symmetry. apply andb_false_iff. right. apply Z.ltb_ge.
  unfold OVERLAY_TTL_MS, DEDUP_WINDOW_MS in *. lia.
Qed.

Lemma pruning_keeps_dedup_answers_witness :
  1700000003000 <= 1700000003000 /\
  List.length (lastSeenMap (run crowd (initial true))) = 51%nat /\
  lastSeenMap (flushTick 1700000003000 (run crowd (initial true))) = [] /\
  recentlyProcessed
    (JsMap.get "A"%string (lastSeenMap (run crowd (initial true))))
    1700000003000 = false.
Proof.
  assert (Hle : 1700000003000 <= 1700000003000) by lia.
  split; [exact Hle |].
  split; [vm_compute; reflexivity |].
  split; [vm_compute; reflexivity |].
  rewrite <- (pruning_keeps_dedup_answers true crowd
                1700000003000 1700000003000 "A" Hle).
  vm_compute. reflexivity.
Defined.

(** X9.  Validate pressed right after Validate, or right after Clear,
    does nothing: no second call to [onValidate] is made. *)
Theorem handleValidate_not_twice :
  forall s : World,
    handleValidate (handleValidate s) = handleValidate s /\
    handleValidate (handleClearPending s) = handleClearPending s.
Proof.
  intros s. split.
  - destruct (list_eq_dec string_dec (pendingEmails s) []) as [He | Hne].
    + rewrite (handleValidate_idle s) by now left. apply handleValidate_idle.
      now left.
    + destruct (isValidating s) eqn:Ev.
      * rewrite (handleValidate_idle s) by now right.
        apply handleValidate_idle. now right.
      * apply handleValidate_idle. left.
        now rewrite (handleValidate_fires s Hne Ev).
  - apply handleValidate_idle. now left.
Qed.

Lemma flushTick_keeps_pending (now : Z) (s : World) (p : string) :
  In p (pendingEmails s) -> In p (pendingEmails (flushTick now s)).
Proof.
  intros H. cbn [flushTick pendingEmails].
  destruct (0 <? JsSet.size (pendingBuffer s)); [| exact H].
  apply unionPending_In. now right.
Qed.

(** X11.  The scan callback never changes the state that React owns
    (overlays, pending and validated sets, the in-flight flag, the calls
    to [onValidate]); in the three refs it touches the entries of the
    detected payload only. *)
Theorem handleBarCodeScanned_frame :
  forall (result : Raw.BarcodeScanningResult) (parsed : Parsed) (now : Z)
         (s : World),
    let s' := handleBarCodeScanned result parsed now s in
    overlays s' = overlays s /\
    pendingEmails s' = pendingEmails s /\
    validatedEmails s' = validatedEmails s /\
    isValidating s' = isValidating s /\
    onValidateCalls s' = onValidateCalls s /\
    forall k, k <> extractEmail parsed (Raw.data result) ->
              JsMap.get k (lastSeenMap s') = JsMap.get k (lastSeenMap s) /\
              JsMap.get k (detectionBuffer s') = JsMap.get k (detectionBuffer s) /\
              (In k (pendingBuffer s') <-> In k (pendingBuffer s)).
Proof.
  intros result parsed now s s'. subst s'.
  scan_gate s now;
    (split; [reflexivity |]); (split; [reflexivity |]);
    (split; [reflexivity |]); (split; [reflexivity |]);
    (split; [reflexivity |]); intros k Hk; try (now repeat split).
  cbn [lastSeenMap detectionBuffer pendingBuffer].
  rewrite !get_set_other by exact Hk.
  split; [reflexivity |]. split; [reflexivity |].
  destruct (negb _ && negb _); [| reflexivity].
  rewrite add_In. tauto.
Qed.

(** ** The buttons *)


(** * Renders that come late *)

(** ** The handlers right after a render *)

Lemma handleBarCodeScanned_rendered result parsed now (s : World) :
  handleBarCodeScanned result parsed now s =
  Live.handleBarCodeScanned (rendered s) result parsed now s.
Proof. reflexivity. Qed.

Lemma handleValidate_rendered (s : World) :
  handleValidate s = Live.handleValidate (rendered s) s.
Proof. reflexivity. Qed.


(** ** A detection between a flush tick and its render *)

Example late_render_buffers_a_pending_payload :
  let c := Live.run [ Live.Handle (Scan (at_origin 10 20) ParseThrows 1700000000000);
                      Live.Handle (Flush 1700000000400);
                      Live.Handle (Scan (at_origin 30 40) ParseThrows 1700000000410) ]
                    (Live.start true) in
  pendingEmails (Live.world c) = ["x@epitech.eu"%string] /\
  Ref.pendingEmails (Live.seen c) = [] /\
  pendingBuffer (Live.world c) = ["x@epitech.eu"%string].
Proof. repeat split. Qed.

(** C2, with a late render.  The payload is detected, a flush tick makes
    it pending, and it is detected again (410 ms after the first time,
    past the dedup window) before the tick's update is rendered: the
    callback still sees an empty pending set and buffers the payload.
    After the render and a press on Validate the payload is validated,
    and the next flush tick puts it into the pending set again: it is
    validated and pending at once, and after the render a second press
    hands it to [onValidate] a second time. *)
Theorem late_render_breaks_disjointness :
  let c := Live.run (late_render ++ [Live.Handle (Flush 1700000000800)])
                    (Live.start true) in
  validatedEmails (Live.world c) = ["x@epitech.eu"%string] /\
  pendingEmails (Live.world c) = ["x@epitech.eu"%string] /\
  onValidateCalls
    (Live.world (Live.run [Live.Render; Live.Handle Validate] c)) =
    [["x@epitech.eu"%string]; ["x@epitech.eu"%string]].
Proof. repeat split. Qed.

(** C4, with a late render.  After the run above up to the press on
    Validate the payload is validated and still sits in the pending
    buffer.  A further detection of it, past the dedup window, writes
    its detection-buffer entry with [processed = true] and leaves the
    pending buffer as it is; the next flush tick nevertheless makes the
    validated payload pending again. *)
Theorem validated_payload_pends_again :
  let c := Live.run late_render (Live.start true) in
  let c1 := Live.step c (Live.Handle
                           (Scan (at_origin 50 60) ParseThrows 1700000000900)) in
  let c2 := Live.step c1 (Live.Handle (Flush 1700000001200)) in
  In "x@epitech.eu"%string (validatedEmails (Live.world c)) /\
  recentlyProcessed
    (JsMap.get "x@epitech.eu"%string (lastSeenMap (Live.world c)))
    1700000000900 = false /\
  JsMap.get "x@epitech.eu"%string (detectionBuffer (Live.world c1)) =
    Some {| id := "x@epitech.eu"; text := "x@epitech.eu";
            bounds := {| x := 50; y := 60; width := 90; height := 90 |};
            lastSeen := 1700000000900; processed := true |} /\
  pendingBuffer (Live.world c1) = pendingBuffer (Live.world c) /\
  In "x@epitech.eu"%string (pendingEmails (Live.world c2)).
Proof.
  cbv zeta. split; [now left |]. split; [reflexivity |].
  split; [reflexivity |]. split; [reflexivity |]. now left.
Qed.

(** ** The shape of the states when renders come at any time *)

Lemma WorldShape_initial (active : bool) : WorldShape (initial active).
Proof.
  split; simpl; try constructor; try (intros ? []); tauto.
Qed.

Lemma WorldShape_scan (state : Ref.ScanState) result parsed now (w : World) :
  WorldShape w ->
  WorldShape (Live.handleBarCodeScanned state result parsed now w).
Proof.
  intros H. unfold Live.handleBarCodeScanned.
  destruct (negb (Ref.isActive state) || Ref.isValidating state); [exact H |].
  destruct (recentlyProcessed _ now); [exact H |].
  destruct H.
  split; cbn [pendingEmails validatedEmails isValidating onValidateCalls
              overlays detectionBuffer submitted]; try assumption.
  - now apply set_keys_NoDup.
  - intros ko Hko. apply set_In in Hko.
    destruct Hko as [-> | Hko]; [now split | now apply ws_detection_keyed0].
Qed.

Lemma WorldShape_flush (now : Z) (w : World) :
  WorldShape w -> WorldShape (flushTick now w).
Proof.
  intros H. destruct H.
  assert (Hov :
    NoDup (map id (overlays (flushTick now w))) /\
    (forall o, In o (overlays (flushTick now w)) -> text o = id o)).
  { cbn [flushTick overlays].
    destruct (0 <? JsMap.size (detectionBuffer w)).
    - destruct (merged_map keyed (now - OVERLAY_TTL_MS)
                  (detectionBuffer w) (overlays w))
        as [m [Heq [Hnd [Hq _]]]].
      + intros o Ho. split; [reflexivity | now apply ws_overlay_text0].
      + exact ws_detection_keyed0.
      + rewrite Heq, (keyed_values_ids m Hq). split; [exact Hnd |].
        intros o Ho. apply in_map_iff in Ho.
        destruct Ho as [[k o'] [Ho' Hin]]. simpl in Ho'. subst o'.
        destruct (Hq _ Hin) as [Hid Htx]. simpl in *. congruence.
    - rewrite pruneOverlays_filter. split; [now apply filter_keys_NoDup |].
      intros o Ho. apply filter_In in Ho. now apply ws_overlay_text0. }
  destruct Hov as [Hov1 Hov2].
  split; try assumption;
    cbn [flushTick pendingEmails validatedEmails isValidating onValidateCalls
         detectionBuffer submitted]; try assumption.
  - destruct (0 <? JsSet.size (pendingBuffer w)); [| assumption].
    rewrite unionPending_fold. now apply fold_add_NoDup.
  - destruct (0 <? JsMap.size (detectionBuffer w)); [constructor | assumption].
  - destruct (0 <? JsMap.size (detectionBuffer w));
      [intros ko [] | assumption].
Qed.

Lemma WorldShape_validate (closure : Ref.ScanState) (w : World) :
  WorldShape w -> NoDup (Ref.pendingEmails closure) ->
  WorldShape (Live.handleValidate closure w).
Proof.
  intros H Hnd. unfold Live.handleValidate.
  destruct (JsSet.size (Ref.pendingEmails closure) =? 0) eqn:Esize;
    [exact H |].
  destruct (Ref.isValidating closure); [exact H |]. cbn [orb].
  assert (Hne : Ref.pendingEmails closure <> []).
  { intros Hnil. rewrite Hnil in Esize. discriminate. }
  destruct H.
  split; cbn [pendingEmails validatedEmails isValidating onValidateCalls
              overlays detectionBuffer]; try assumption.
  - constructor.
  - now apply fold_add_NoDup.
  - reflexivity.
  - intros emails Hin. apply in_app_iff in Hin.
    destruct Hin as [Hin | [<- | []]]; [now apply ws_calls0 | now split].
  - intros p. unfold submitted in *. cbn [onValidateCalls].
    rewrite concat_app. simpl. rewrite app_nil_r.
    rewrite in_app_iff, fold_add_In, ws_submitted0. tauto.
  - rewrite map_map. exact ws_overlay_ids0.
  - intros o Ho. apply in_map_iff in Ho. destruct Ho as [o0 [<- Ho]].
    simpl. now apply ws_overlay_text0.
Qed.

Lemma WorldShape_clear (w : World) :
  WorldShape w -> WorldShape (handleClearPending w).
Proof. intros []. split; try assumption. constructor. Qed.

Lemma WorldShape_setActive active (w : World) :
  WorldShape w -> WorldShape (setActive active w).
Proof. intros []. now split. Qed.

Lemma LiveShape_render (w : World) :
  WorldShape w -> LiveShape (Live.render w).
Proof.
  intros H. split; cbn; try reflexivity; try tauto; apply H.
Qed.

Lemma LiveShape_step (c : Live.Component) (a : Live.Action) :
  LiveShape c -> LiveShape (Live.step c a).
Proof.
  intros H. destruct a as [[result parsed now | now | | | active] |];
    cbn [Live.step].
  - destruct H. split; cbn [Live.world Live.seen]; try assumption.
    + now apply WorldShape_scan.
    + rewrite live_seen_validated0. unfold Live.handleBarCodeScanned.
      destruct (negb _ || _); [reflexivity |].
      destruct (recentlyProcessed _ now); reflexivity.
    + intros p Hp. apply live_seen_pending0 in Hp.
      unfold Live.handleBarCodeScanned.
      destruct (negb _ || _); [exact Hp |].
      destruct (recentlyProcessed _ now); exact Hp.
    + rewrite live_seen_active0. unfold Live.handleBarCodeScanned.
      destruct (negb _ || _); [reflexivity |].
      destruct (recentlyProcessed _ now); reflexivity.
  - destruct H. split; cbn [Live.world Live.seen]; try assumption.
    + now apply WorldShape_flush.
    + intros p Hp. apply flushTick_keeps_pending. now apply live_seen_pending0.
  - destruct ((JsSet.size (Ref.pendingEmails (Live.seen c)) =? 0) ||
              Ref.isValidating (Live.seen c)); [exact H |].
    destruct H. now apply LiveShape_render, WorldShape_validate.
  - destruct H. now apply LiveShape_render, WorldShape_clear.
  - destruct H. now apply LiveShape_render, WorldShape_setActive.
  - destruct H. now apply LiveShape_render.
Qed.

Lemma LiveShape_run (actions : list Live.Action) (c : Live.Component) :
  LiveShape c -> LiveShape (Live.run actions c).
Proof.
  revert c. induction actions as [|a actions IH]; intros c H; simpl.
  - exact H.
  - apply IH, LiveShape_step, H.
Qed.

Lemma reachable_live_shape (active : bool) (actions : list Live.Action) :
  LiveShape (Live.run actions (Live.start active)).
Proof. apply LiveShape_run, LiveShape_render, WorldShape_initial. Qed.

(** ** What holds however late the renders come *)

Lemma live_validate_guard (closure : Ref.ScanState) (p : string) :
  In p (Ref.pendingEmails closure) -> Ref.isValidating closure = false ->
  (JsSet.size (Ref.pendingEmails closure) =? 0) || Ref.isValidating closure
  = false.
Proof.
  intros Hp Hv. rewrite Hv, orb_false_r.
  destruct (JsSet.size (Ref.pendingEmails closure) =? 0) eqn:E;
    [| reflexivity].
  apply set_size_zero_iff in E. rewrite E in Hp. destruct Hp.
Qed.

Lemma live_scan_frame (state : Ref.ScanState) result parsed now (w : World) :
  let w' := Live.handleBarCodeScanned state result parsed now w in
  pendingEmails w' = pendingEmails w /\
  validatedEmails w' = validatedEmails w /\
  onValidateCalls w' = onValidateCalls w.
Proof.
  cbv zeta. unfold Live.handleBarCodeScanned.
  destruct (negb (Ref.isActive state) || Ref.isValidating state);
    [now repeat split |].
  destruct (recentlyProcessed _ now); now repeat split.
Qed.

Lemma flushTick_shows_entry (now : Z) (w : World) (k : string) (o : QROverlay) :
  NoDup (map fst (detectionBuffer w)) ->
  JsMap.get k (detectionBuffer w) = Some o ->
  In o (overlays (flushTick now w)).
Proof.
  intros Hnd Hget. cbn [flushTick overlays].
  destruct (detectionBuffer w) as [|ko buffer] eqn:Ebuf; [discriminate |].
  replace (0 <? JsMap.size (ko :: buffer)) with true by reflexivity.
  destruct (merged_map (fun _ => True) (now - OVERLAY_TTL_MS)
              (ko :: buffer) (overlays w))
    as [m [Heq [_ [_ Hlook]]]]; try (intros; exact I).
  rewrite Heq. apply (Hlook Hnd) in Hget. apply get_In in Hget.
  unfold JsMap.values. apply in_map_iff. now exists (k, o).
Qed.





(** X17.  However late the renders come, the validated set that the
    scan callback reads is the current one.  So with the camera active,
    a detection of a validated payload [p] that the dedup filter lets
    through writes the detection-buffer entry of [p] with the fresh
    bounds and time and with [processed = true], and adds nothing to the
    pending buffer. *)
Theorem validated_scan_marks_processed :
  forall (active : bool) (actions : list Live.Action)
         (result : Raw.BarcodeScanningResult) (parsed : Parsed) (now : Z),
    let c := Live.run actions (Live.start active) in
    let p := extractEmail parsed (Raw.data result) in
    isActive (Live.world c) = true ->
    In p (validatedEmails (Live.world c)) ->
    recentlyProcessed (JsMap.get p (lastSeenMap (Live.world c))) now = false ->
    let c' := Live.step c (Live.Handle (Scan result parsed now)) in
    Ref.validatedEmails (Live.seen c) = validatedEmails (Live.world c) /\
    JsMap.get p (detectionBuffer (Live.world c')) =
      Some {| id := p; text := p; bounds := computeBounds result;
              lastSeen := now; processed := true |} /\
    pendingBuffer (Live.world c') = pendingBuffer (Live.world c) /\
    pendingEmails (Live.world c') = pendingEmails (Live.world c).
Proof.
  intros active actions result parsed now c p Ha Hval Hd c'.
  assert (H : LiveShape c) by apply reachable_live_shape.
  destruct H as [_ Hsv _ _ Hv Hact].
  rewrite Ha in Hact.
  assert (Hhas : JsSet.has p (Ref.validatedEmails (Live.seen c)) = true)
    by (rewrite Hsv; now apply has_true_iff).
  split; [exact Hsv |].
  subst c'. cbn [Live.step Live.world]. unfold Live.handleBarCodeScanned.
  rewrite Hact, Hv. cbn [negb orb]. cbv zeta. fold p. rewrite Hd, Hhas.
  cbn [negb andb detectionBuffer pendingBuffer pendingEmails].
  split; [apply get_set_same | now split].
Qed.

Lemma validated_scan_marks_processed_witness :
  let c := Live.run late_render (Live.start true) in
  let c' := Live.step c (Live.Handle
                           (Scan (at_origin 50 60) ParseThrows 1700000000900)) in
  validatedEmails (Live.world c) = ["x@epitech.eu"%string] /\
  JsMap.get "x@epitech.eu"%string (detectionBuffer (Live.world c')) =
    Some {| id := "x@epitech.eu"; text := "x@epitech.eu";
            bounds := {| x := 50; y := 60; width := 90; height := 90 |};
            lastSeen := 1700000000900; processed := true |} /\
  pendingBuffer (Live.world c') = pendingBuffer (Live.world c).
Proof.
  cbv zeta. split; [reflexivity |].
  assert (Ha : isActive (Live.world (Live.run late_render (Live.start true)))
               = true) by reflexivity.
  assert (Hval : In (extractEmail ParseThrows (Raw.data (at_origin 50 60)))
                    (validatedEmails
                       (Live.world (Live.run late_render (Live.start true)))))
    by (vm_compute; now left).
  assert (Hd : recentlyProcessed
                 (JsMap.get (extractEmail ParseThrows (Raw.data (at_origin 50 60)))
                    (lastSeenMap
                       (Live.world (Live.run late_render (Live.start true)))))
                 1700000000900 = false) by reflexivity.
  destruct (validated_scan_marks_processed true late_render (at_origin 50 60)
              ParseThrows 1700000000900 Ha Hval Hd) as [_ [Hbuf [Hpb _]]].
  split; [exact Hbuf | exact Hpb].
Defined.

(** X10.  With the camera active, a detection of a payload [p] that is
    not validated and passes the dedup filter makes [p] pending at the
    next flush tick, whatever the callback saw; once that tick is
    rendered, a press on Validate hands the pending set, [p] included,
    to [onValidate] in one more call, [p] is validated and the pending
    set is empty. *)
Theorem detection_flush_validate_submits :
  forall (active : bool) (actions : list Live.Action)
         (result : Raw.BarcodeScanningResult) (parsed : Parsed)
         (now nowF : Z),
    let c := Live.run actions (Live.start active) in
    let p := extractEmail parsed (Raw.data result) in
    isActive (Live.world c) = true ->
    ~ In p (validatedEmails (Live.world c)) ->
    recentlyProcessed (JsMap.get p (lastSeenMap (Live.world c))) now = false ->
    let c2 := Live.run [ Live.Handle (Scan result parsed now);
                         Live.Handle (Flush nowF) ] c in
    let c' := Live.run [ Live.Render; Live.Handle Validate ] c2 in
    In p (pendingEmails (Live.world c2)) /\
    onValidateCalls (Live.world c') =
      onValidateCalls (Live.world c) ++ [pendingEmails (Live.world c2)] /\
    In p (validatedEmails (Live.world c')) /\
    pendingEmails (Live.world c') = [].
Proof.
  intros active actions result parsed now nowF c p Ha Hnv Hd c2 c'.
  assert (H : LiveShape c) by apply reachable_live_shape.
  assert (H2 : LiveShape c2) by (subst c2; now apply LiveShape_run).
  destruct H as [_ Hsv Hsp _ Hv Hact]. rewrite Ha in Hact.
  set (w1 := Live.handleBarCodeScanned (Live.seen c) result parsed now
               (Live.world c)).
  assert (Hw2 : Live.world c2 = flushTick nowF w1) by reflexivity.
  destruct (live_scan_frame (Live.seen c) result parsed now (Live.world c))
    as [Hp1 [_ Hc1]]. fold w1 in Hp1, Hc1.
  assert (HA : In p (pendingEmails w1) \/ In p (pendingBuffer w1)).
  { assert (Hhas : JsSet.has p (Ref.validatedEmails (Live.seen c)) = false)
      by (rewrite Hsv; now apply has_false_iff).
    destruct (JsSet.has p (Ref.pendingEmails (Live.seen c))) eqn:E.
    - left. rewrite Hp1. apply Hsp. now apply has_true_iff.
    - right. unfold w1, Live.handleBarCodeScanned.
      rewrite Hact, Hv. cbn [negb orb]. cbv zeta. fold p.
      rewrite Hd, Hhas, E. cbn [negb andb pendingBuffer].
      apply add_In. now left. }
  assert (HB : In p (pendingEmails (Live.world c2))).
  { rewrite Hw2. destruct HA as [HA | HA].
    - now apply flushTick_keeps_pending.
    - cbn [flushTick pendingEmails].
      destruct (pendingBuffer w1) as [|e buf] eqn:Eb; [destruct HA |].
      replace (0 <? JsSet.size (e :: buf)) with true by reflexivity.
      apply unionPending_In. now left. }
  assert (Hguard : (JsSet.size (pendingEmails (Live.world c2)) =? 0) ||
                   isValidating (Live.world c2) = false).
  { apply (live_validate_guard (rendered (Live.world c2)) p); [exact HB |].
    cbn [rendered Ref.isValidating].
    exact (ws_validating _ (live_world _ H2)). }
  assert (Hc' : Live.world c' =
                Live.handleValidate (rendered (Live.world c2)) (Live.world c2)).
  { subst c'. cbn [Live.run fold_left Live.step Live.render Live.seen
                   Live.world rendered Ref.pendingEmails Ref.isValidating].
    now rewrite Hguard. }
  split; [exact HB |].
  rewrite Hc'. unfold Live.handleValidate.
  cbn [rendered Ref.pendingEmails Ref.isValidating]. rewrite Hguard.
  cbn [onValidateCalls validatedEmails pendingEmails].
  split; [| split; [| reflexivity]].
  - rewrite Hw2. cbn [flushTick onValidateCalls]. now rewrite Hc1.
  - apply fold_add_In. now left.
Qed.

Lemma detection_flush_validate_submits_witness :
  let c2 := Live.run [ Live.Handle (Scan (at_origin 10 20) ParseThrows
                                      1700000000000);
                       Live.Handle (Flush 1700000000400) ]
                     (Live.start true) in
  let c' := Live.run [ Live.Render; Live.Handle Validate ] c2 in
  pendingEmails (Live.world c2) = ["x@epitech.eu"%string] /\
  onValidateCalls (Live.world c') = [["x@epitech.eu"%string]] /\
  In "x@epitech.eu"%string (validatedEmails (Live.world c')).
Proof.
  cbv zeta. split; [reflexivity |].
  assert (Ha : isActive (Live.world (Live.run [] (Live.start true))) = true)
    by reflexivity.
  assert (Hnv : ~ In (extractEmail ParseThrows (Raw.data (at_origin 10 20)))
                     (validatedEmails
                        (Live.world (Live.run [] (Live.start true)))))
    by (intros []).
  assert (Hd : recentlyProcessed
                 (JsMap.get (extractEmail ParseThrows (Raw.data (at_origin 10 20)))
                    (lastSeenMap (Live.world (Live.run [] (Live.start true)))))
                 1700000000000 = false) by reflexivity.
  destruct (detection_flush_validate_submits true [] (at_origin 10 20)
              ParseThrows 1700000000000 1700000000400 Ha Hnv Hd)
    as [_ [Hcalls [Hval _]]].
  split; [exact Hcalls | exact Hval].
Defined.

(** A press on Validate between a flush tick and its render hands over
    the pending set of the last render: the payload that the tick has
    just made pending is not handed over, and it is pending no more. *)
Example press_before_render_drops_payload :
  let c := Live.run [ Live.Handle (Scan (at_origin 10 20) ParseThrows
                                     1700000000000);
                      Live.Handle (Flush 1700000000400);
                      Live.Render;
                      Live.Handle (Scan (at_origin 30 40) (ParsedObject
                                     (Some "y@epitech.eu"%string) None)
                                     1700000000500);
                      Live.Handle (Flush 1700000000800) ]
                    (Live.start true) in
  pendingEmails (Live.world c) = ["x@epitech.eu"%string; "y@epitech.eu"%string] /\
  onValidateCalls (Live.world (Live.step c (Live.Handle Validate)))
  = [["x@epitech.eu"%string]] /\
  pendingEmails (Live.world (Live.step c (Live.Handle Validate))) = [] /\
  validatedEmails (Live.world (Live.step c (Live.Handle Validate)))
  = ["x@epitech.eu"%string].
Proof. repeat split. Qed.

(** X16.  A press on Validate leaves the detection buffer as it is.  So
    when a payload that the press validates has an entry in the
    detection buffer, the next flush tick makes that entry the only
    overlay of the payload, with the processed flag the entry was
    written with: an entry written before the payload was validated
    shows it as not processed although it is validated by then. *)
Theorem validate_keeps_buffered_entry :
  forall (active : bool) (actions : list Live.Action) (now : Z)
         (k : string) (o : QROverlay),
    let c := Live.run actions (Live.start active) in
    JsMap.get k (detectionBuffer (Live.world c)) = Some o ->
    In k (Ref.pendingEmails (Live.seen c)) ->
    let c1 := Live.step c (Live.Handle Validate) in
    let c2 := Live.step c1 (Live.Handle (Flush now)) in
    detectionBuffer (Live.world c1) = detectionBuffer (Live.world c) /\
    In k (validatedEmails (Live.world c2)) /\
    In o (overlays (Live.world c2)) /\
    forall o', In o' (overlays (Live.world c2)) -> id o' = k -> o' = o.
Proof.
  intros active actions now k o c Hget Hpend c1 c2.
  assert (H : LiveShape c) by apply reachable_live_shape.
  assert (H2 : LiveShape c2) by (subst c2 c1; now do 2 apply LiveShape_step).
  destruct H as [Hw _ _ _ Hv _].
  pose proof (live_validate_guard (Live.seen c) k Hpend Hv) as Hguard.
  assert (Hc1 : Live.world c1 =
                Live.handleValidate (Live.seen c) (Live.world c)).
  { subst c1. cbn [Live.step]. now rewrite Hguard. }
  assert (Hbuf : detectionBuffer (Live.world c1) = detectionBuffer (Live.world c)).
  { rewrite Hc1. unfold Live.handleValidate. now rewrite Hguard. }
  assert (Hin : In o (overlays (Live.world c2))).
  { subst c2. cbn [Live.step Live.world].
    apply (flushTick_shows_entry now (Live.world c1) k o).
    - rewrite Hbuf. exact (ws_detection_keys _ Hw).
    - now rewrite Hbuf. }
  assert (Hid : id o = k).
  { apply get_In in Hget. apply (ws_detection_keyed _ Hw) in Hget.
    apply Hget. }
  split; [exact Hbuf |]. split.
  { subst c2. cbn [Live.step Live.world flushTick validatedEmails].
    rewrite Hc1. unfold Live.handleValidate. rewrite Hguard.
    cbn [validatedEmails]. apply fold_add_In. now left. }
  split; [exact Hin |].
  intros o' Ho' Hid'.
  apply (NoDup_map_inj id (overlays (Live.world c2)));
    [exact (ws_overlay_ids _ (live_world _ H2)) | exact Ho' | exact Hin
    | congruence].
Qed.

Lemma validate_keeps_buffered_entry_witness :
  let c := Live.run [ Live.Handle (Scan (at_origin 10 20) ParseThrows
                                     1700000000000);
                      Live.Handle (Flush 1700000000400);
                      Live.Render;
                      Live.Handle (Scan (at_origin 30 40) ParseThrows
                                     1700000000500) ]
                    (Live.start true) in
  let c1 := Live.step c (Live.Handle Validate) in
  let c2 := Live.step c1 (Live.Handle (Flush 1700000000800)) in
  map processed (overlays (Live.world c1)) = [true] /\
  In "x@epitech.eu"%string (validatedEmails (Live.world c2)) /\
  map processed (overlays (Live.world c2)) = [false].
Proof.
  cbv zeta. split; [reflexivity |].
  pose (actions := [ Live.Handle (Scan (at_origin 10 20) ParseThrows
                                    1700000000000);
                     Live.Handle (Flush 1700000000400);
                     Live.Render;
                     Live.Handle (Scan (at_origin 30 40) ParseThrows
                                    1700000000500) ]).
  assert (Hget : JsMap.get "x@epitech.eu"%string
                   (detectionBuffer
                      (Live.world (Live.run actions (Live.start true))))
                 = Some {| id := "x@epitech.eu"; text := "x@epitech.eu";
                           bounds := {| x := 30; y := 40;
                                        width := 90; height := 90 |};
                           lastSeen := 1700000000500; processed := false |})
    by reflexivity.
  assert (Hpend : In "x@epitech.eu"%string
                    (Ref.pendingEmails
                       (Live.seen (Live.run actions (Live.start true)))))
    by (vm_compute; now left).
  split.
  - exact (proj1 (proj2 (validate_keeps_buffered_entry true actions
                           1700000000800 _ _ Hget Hpend))).
  - reflexivity.
Defined.
